(** * A FastAPI facade over a remote file store: embedding of [app/main.py]

    The module is a thin HTTP layer: each route handler issues calls of the
    storage SDK ([drive_service.files().list/get/get_media/create/delete/
    update]) and reshapes the reply.  The handlers are embedded as functions
    over an explicit world (the state of the remote service together with the
    transcript of the SDK calls made so far); Python exceptions are an error
    outcome, and the one unbounded loop of the module (the chunk loop of
    [download_file]) runs on a step budget. *)

From Stdlib.Strings Require Import Ascii Byte.
From stdpp Require Import base option list strings pretty gmap fin_maps.

(** ** Python values used by the module *)

(** A Python string is held as the bytes of its UTF-8 form.  Its characters
    are the code points those bytes encode (a byte that starts no sequence
    stands for itself). *)
Fixpoint code_points (s : string) : list N :=
  match s with
  | EmptyString => []
  | String b s1 =>
    let v := N_of_ascii b in
    if (v <? 192)%N then v :: code_points s1
    else
      match s1 with
      | EmptyString => [v]
      | String c1 s2 =>
        let v1 := (N_of_ascii c1 - 128)%N in
        if (v <? 224)%N then ((v - 192) * 64 + v1)%N :: code_points s2
        else
          match s2 with
          | EmptyString => [v; N_of_ascii c1]
          | String c2 s3 =>
            let v2 := (N_of_ascii c2 - 128)%N in
            if (v <? 240)%N then
              ((v - 224) * 4096 + v1 * 64 + v2)%N :: code_points s3
            else
              match s3 with
              | EmptyString => [v; N_of_ascii c1; N_of_ascii c2]
              | String c3 s4 =>
                ((v - 240) * 262144 + v1 * 4096 + v2 * 64
                 + (N_of_ascii c3 - 128))%N :: code_points s4
              end
          end
      end
  end.

Definition hex_digit (n : N) : ascii :=
  if (n <? 10)%N then ascii_of_N (48 + n) else ascii_of_N (87 + n).

(** [n] in hexadecimal, lower case, on [digits] digits. *)
Fixpoint hex (digits : nat) (n : N) (rest : string) : string :=
  match digits with
  | 0 => rest
  | S digits => hex digits (n / 16) (String (hex_digit (n mod 16)) rest)
  end.

(** A character as an error message shows it. *)
Definition escape (c : N) : string :=
  if (c <? 256)%N then "\x" +:+ hex 2 c EmptyString
  else if (c <? 65536)%N then "\u" +:+ hex 4 c EmptyString
  else "\U" +:+ hex 8 c EmptyString.

(** Exceptions.  [HTTPException] is FastAPI's, [RuntimeError] is raised by the
    module itself, [KeyError] by subscripting a dict, [UnicodeEncodeError] by
    encoding a string (the characters from [start] up to [stop] cannot be
    encoded); [RemoteError] stands for any instance of [Exception] raised
    inside an SDK call (HTTP errors of the service, transport errors),
    identified by its string form. *)
Inductive exn :=
| HTTPException (status_code : nat) (detail : string)
| RuntimeError (msg : string)
| KeyError (key : string)
| UnicodeEncodeError (encoding object : string) (start stop : nat)
                     (reason : string)
| RemoteError (msg : string).

(** [str(e)] *)
Definition str (e : exn) : string :=
  match e with
  | HTTPException c d => pretty c +:+ ": " +:+ d
  | RuntimeError m => m
  | KeyError k => "'" +:+ k +:+ "'"
  | UnicodeEncodeError encoding object start stop reason =>
    "'" +:+ encoding +:+ "' codec can't encode " +:+
    (if Nat.eqb (stop - start) 1 then
       "character '" +:+ escape (nth start (code_points object) 0%N)
       +:+ "' in position " +:+ pretty start
     else
       "characters in position " +:+ pretty start +:+ "-"
       +:+ pretty (stop - 1))
    +:+ ": " +:+ reason
  | RemoteError m => m
  end.

(** How many characters at the head of [cps] latin-1 does not have. *)
Fixpoint bad_prefix (cps : list N) : nat :=
  match cps with
  | [] => 0
  | c :: cps' => if (c <? 256)%N then 0 else S (bad_prefix cps')
  end.

(** The first run of characters of [cps], counted from [i], that latin-1
    does not have. *)
Fixpoint bad_run (cps : list N) (i : nat) : option (nat * nat) :=
  match cps with
  | [] => None
  | c :: cps' =>
    if (c <? 256)%N then bad_run cps' (S i)
    else Some (i, S i + bad_prefix cps')
  end.

(** [s.encode("latin-1")], for what matters here: the exception it raises,
    if it raises. *)
Definition latin1_error (s : string) : option exn :=
  match bad_run (code_points s) 0 with
  | Some (start, stop) =>
    Some (UnicodeEncodeError "latin-1" s start stop "ordinal not in range(256)")
  | None => None
  end.

(** What a call or a handler does: it returns a value or raises. *)
Inductive outcome (A : Type) :=
| Returns (a : A)
| Raises (e : exn).
Arguments Returns {A} a.
Arguments Raises {A} e.

(** [f"{x}"] for a value that is a string or [None]. *)
Definition fmt (x : option string) : string := default "None" x.

(** A dict with string keys and string values (a file resource of the
    service, restricted to the requested fields). *)
Abbreviation resource := (gmap string string).

(** Strings: [s.startswith(p)], [p in s], and [s] followed by a character. *)

(** [s.startswith(p)] *)
Fixpoint startswith (s p : string) {struct p} : bool :=
  match p, s with
  | EmptyString, _ => true
  | String c p', String d s' => Ascii.eqb c d && startswith s' p'
  | String _ _, EmptyString => false
  end.

(** [p in s]: [p] occurs in [s] as a substring. *)
Fixpoint contains (s p : string) : bool :=
  startswith s p ||
  match s with
  | EmptyString => false
  | String _ s' => contains s' p
  end.

(** [s] followed by the character [c]. *)
Fixpoint snoc (s : string) (c : ascii) : string :=
  match s with
  | EmptyString => String c EmptyString
  | String d s' => String d (snoc s' c)
  end.

(** [io.BytesIO]: a growable buffer with a position. *)
Record BytesIO := { buf : list byte; pos : nat }.

Definition BytesIO_new (initial : list byte) : BytesIO :=
  {| buf := initial; pos := 0 |}.

(** [fh.write(data)]: overwrite from the position on, growing the buffer
    (padding with zero bytes when the position is beyond the end). *)
Definition BytesIO_write (fh : BytesIO) (data : list byte) : BytesIO :=
  {| buf := take (pos fh) (buf fh) ++ replicate (pos fh - length (buf fh)) x00
            ++ data ++ drop (pos fh + length data) (buf fh);
     pos := pos fh + length data |}.

(** [fh.seek(n)] *)
Definition BytesIO_seek (fh : BytesIO) (n : nat) : BytesIO :=
  {| buf := buf fh; pos := n |}.

(** Reading a file object to its end, from the current position. *)
Definition BytesIO_read (fh : BytesIO) : list byte := drop (pos fh) (buf fh).

(** ** Module start-up (lines 13-31 and the route decorators) *)

Module Startup.

Inductive method := GET | POST | DELETE | PATCH.

#[global] Instance method_eq_dec : EqDecision method.
Proof. solve_decision. Defined.

(** The handlers of the module, by name. *)
Inductive endpoint :=
| root | list_files | download_file | upload_file | delete_file | rename_file.

Record route := { r_method : method; r_path : string; r_endpoint : endpoint }.

(** The state the module body builds up while it is imported: the routes
    registered on [app] by the decorators, and the module globals. *)
Record module_state := {
  routes : list route;
  SERVICE_ACCOUNT_FILE : option string;
  FOLDER_ID : option string;
  drive_service : bool  (* the client handle has been built *)
}.

(** [app = FastAPI()]: no route of the module is registered yet (the
    documentation pages the framework adds by itself are left out). *)
Definition initial : module_state :=
  {| routes := []; SERVICE_ACCOUNT_FILE := None; FOLDER_ID := None;
     drive_service := false |}.

(** [load_dotenv()]: variables of the [.env] file are added to the process
    environment; a variable already set keeps its value. *)
Definition load_dotenv (environ dotenv : gmap string string)
  : gmap string string := environ ∪ dotenv.

(** [os.getenv(k)] *)
Definition getenv (environ : gmap string string) (k : string)
  : option string := environ !! k.

(** [not x] for [x] a string or [None]. *)
Definition py_not (x : option string) : bool :=
  match x with
  | None => true
  | Some s => bool_decide (s = "")
  end.

(** [@app.get(path)] and friends: append a route. *)
Definition register (m : method) (p : string) (e : endpoint)
    (st : module_state) : module_state :=
  {| routes := routes st ++ [ {| r_method := m; r_path := p; r_endpoint := e |} ];
     SERVICE_ACCOUNT_FILE := SERVICE_ACCOUNT_FILE st;
     FOLDER_ID := FOLDER_ID st;
     drive_service := drive_service st |}.

Definition SCOPES : list string := ["https://www.googleapis.com/auth/drive"].

Definition missing_settings : exn :=
  RuntimeError
    "Missing GOOGLE_SERVICE_ACCOUNT_FILE or GOOGLE_DRIVE_FOLDER_ID in .env".

Section ModuleBody.

(** The two library calls of the module body that can fail: loading the
    credentials from the file and building the client. *)
Variable from_service_account_file : string -> list string -> outcome unit.
Variable build : string -> string -> outcome unit.

(** Executing the module body, top to bottom.  The result is the module
    state reached and, if the body raised, the exception. *)
Definition import_module (environ dotenv : gmap string string)
  : module_state * option exn :=
  let environ := load_dotenv environ dotenv in
  let st := initial in
  let saf := getenv environ "GOOGLE_SERVICE_ACCOUNT_FILE" in
  let fid := getenv environ "GOOGLE_DRIVE_FOLDER_ID" in
  let st := {| routes := routes st; SERVICE_ACCOUNT_FILE := saf;
               FOLDER_ID := fid; drive_service := false |} in
  if py_not saf || py_not fid then (st, Some missing_settings)
  else
    match from_service_account_file (default EmptyString saf) SCOPES with
    | Raises e => (st, Some e)
    | Returns _ =>
      match build "drive" "v3" with
      | Raises e => (st, Some e)
      | Returns _ =>
        let st := {| routes := routes st; SERVICE_ACCOUNT_FILE := saf;
                     FOLDER_ID := fid; drive_service := true |} in
        let st := register GET "/" root st in
        let st := register GET "/files" list_files st in
        let st := register GET "/download/{file_id}" download_file st in
        let st := register POST "/upload" upload_file st in
        let st := register DELETE "/delete/{file_id}" delete_file st in
        let st := register PATCH "/rename/{file_id}" rename_file st in
        (st, None)
      end
    end.

End ModuleBody.

(** The segments of a path, split at the slashes. *)
Fixpoint segments_go (cur : string) (p : string) : list string :=
  match p with
  | EmptyString => [cur]
  | String c p' =>
    if Ascii.eqb c "/" then cur :: segments_go EmptyString p'
    else segments_go (snoc cur c) p'
  end.

Definition segments : string -> list string := segments_go EmptyString.

(** A path against the path of a route, segment by segment; a parameter
    [{name}] of the route stands for any segment that is not empty. *)
Fixpoint path_matches (template path : list string) : bool :=
  match template, path with
  | [], [] => true
  | t :: template', s :: path' =>
    (if startswith t "{" then negb (String.eqb s EmptyString)
     else String.eqb t s)
    && path_matches template' path'
  | _, _ => false
  end.

(** The server dispatches a request to the first route that matches it, and
    only for an application whose module was imported without an exception:
    when the import raises, the process ends there. *)
Definition served (res : module_state * option exn) (m : method)
    (p : string) : option endpoint :=
  match res with
  | (st, None) =>
    r_endpoint <$>
      find (fun r => bool_decide (r_method r = m)
                     && path_matches (segments (r_path r)) (segments p))
           (routes st)
  | (_, Some _) => None
  end.

End Startup.

(** ** The storage SDK, as the handlers use it *)

(** The body of a [create] or [update] call: a file resource in which only
    some fields are given. *)
Record file_body := { b_name : option string; b_parents : option (list string) }.

(** [MediaIoBaseUpload(fd, mimetype=...)] (not resumable, the default). *)
Record MediaIoBaseUpload := { fd : BytesIO; mimetype : string }.

(** The calls of [drive_service.files()], each taking the state of the remote
    service to a reply and a new state.  [files_list] replies with the value
    under the key ["files"] of the response dict, if the key is there;
    [files_get_media fileId progress] is one ranged fetch of the media
    download, replying with the bytes received and whether the transfer is
    complete. *)
Record DriveService (R : Type) := {
  files_list : string -> string -> string -> R ->
               outcome (option (list resource)) * R;
  files_get_media : string -> nat -> R -> outcome (list byte * bool) * R;
  files_get : string -> string -> R -> outcome resource * R;
  files_create : file_body -> MediaIoBaseUpload -> string -> R ->
                 outcome resource * R;
  files_delete : string -> R -> outcome unit * R;
  files_update : string -> file_body -> string -> R -> outcome resource * R
}.
Arguments files_list {R} _.
Arguments files_get_media {R} _.
Arguments files_get {R} _.
Arguments files_create {R} _.
Arguments files_delete {R} _.
Arguments files_update {R} _.

(** One exchange with the remote service: the call with its arguments, and
    the reply. *)
Inductive event :=
| EList (q spaces fields : string) (reply : outcome (option (list resource)))
| EGetMedia (fileId : string) (progress : nat)
            (reply : outcome (list byte * bool))
| EGet (fileId fields : string) (reply : outcome resource)
| ECreate (body : file_body) (media_body : MediaIoBaseUpload) (fields : string)
          (reply : outcome resource)
| EDelete (fileId : string) (reply : outcome unit)
| EUpdate (fileId : string) (body : file_body) (fields : string)
          (reply : outcome resource).

(** ** Responses of the handlers *)

Record list_response := { count : nat; files : list resource }.
Record upload_response := { up_id : option string; up_name : option string }.
Record message_response := { message : string }.
Record rename_response := { rn_id : string; rn_new_name : string }.
Record StreamingResponse := {
  body : list byte;
  media_type : string;
  headers : gmap string string
}.

(** The headers of a response are encoded as latin-1 when the response is
    built, name then value, in the order of the dict (the framework
    lower-cases the name first, which changes nothing for the plain name this
    module uses, and adds the content type, a plain text too). *)
Fixpoint encode_headers (headers : list (string * string)) : option exn :=
  match headers with
  | [] => None
  | (k, v) :: headers =>
    match latin1_error k with
    | Some e => Some e
    | None =>
      match latin1_error v with
      | Some e => Some e
      | None => encode_headers headers
      end
    end
  end.

(** [StreamingResponse(content, media_type=..., headers=...)], with the
    content a file object (read from its position on when the response is
    sent): it raises when a header cannot be encoded. *)
Definition StreamingResponse_new (content : BytesIO) (mtype : string)
    (hdrs : list (string * string)) : outcome StreamingResponse :=
  match encode_headers hdrs with
  | Some e => Raises e
  | None =>
    Returns {| body := BytesIO_read content;
               media_type := mtype;
               headers := list_to_map hdrs |}
  end.

Arguments StreamingResponse_new : simpl never.

(** [UploadFile]: one part of a multipart form. *)
Record UploadFile := {
  filename : string;
  content_type : string;
  content : list byte
}.

(** [MediaIoBaseDownload(fd, request)] *)
Record MediaIoBaseDownload := {
  dl_fd : BytesIO;
  dl_request : string;  (* the file the [get_media] request is for *)
  dl_progress : nat
}.

(** What the downloader does with the bytes of one fetch: they go to the file
    object, and the offset of the next fetch moves on. *)
Definition advance (d : MediaIoBaseDownload) (received : list byte)
  : MediaIoBaseDownload :=
  {| dl_fd := BytesIO_write (dl_fd d) received;
     dl_request := dl_request d;
     dl_progress := dl_progress d + length received |}.

(** ** The handlers *)

Section Handlers.

Context {R : Type}.
Variable drive_service : DriveService R.
Variable FOLDER_ID : string.

(** The remote service and the transcript of the exchanges so far. *)
Record world := { remote : R; transcript : list event }.

Definition M (A : Type) : Type := world -> outcome A * world.

Definition ret {A} (a : A) : M A := fun w => (Returns a, w).

Definition raise {A} (e : exn) : M A := fun w => (Raises e, w).

(** A step that does not touch the world. *)
Definition lift {A} (o : outcome A) : M A := fun w => (o, w).

Definition bind {A B} (m : M A) (k : A -> M B) : M B :=
  fun w =>
    match m w with
    | (Returns a, w') => k a w'
    | (Raises e, w') => (Raises e, w')
    end.

(** [except Exception as e: raise HTTPException(status_code=500, detail=str(e))] *)
Definition reraise {A} (o : outcome A) : outcome A :=
  match o with
  | Returns a => Returns a
  | Raises e => Raises (HTTPException 500 (str e))
  end.

Definition try_except {A} (m : M A) : M A :=
  fun w => let '(o, w') := m w in (reraise o, w').

(** [.execute()]: the call goes to the remote service and is recorded. *)
Definition execute {A} (call : R -> outcome A * R) (ev : outcome A -> event)
  : M A :=
  fun w =>
    let '(reply, r') := call (remote w) in
    (reply, {| remote := r'; transcript := transcript w ++ [ev reply] |}).

(** [d[k]] *)
Definition getitem (d : resource) (k : string) : M string :=
  match d !! k with
  | Some v => ret v
  | None => raise (KeyError k)
  end.

Local Notation "x <- m ;; k" := (bind m (fun x => k))
  (at level 100, m at next level, right associativity).

(** lines 34-36 *)
Definition root : message_response :=
  {| message := "Hello from FastAPI + Google Drive!" |}.

(** The filter expression of [list_files] (lines 47-49). *)
Definition list_query (extension : option string) : string :=
  let query := "'" +:+ FOLDER_ID +:+ "' in parents and trashed = false" in
  match extension with
  | Some ext =>
    if bool_decide (ext = "") then query
    else query +:+ " and name contains '." +:+ ext +:+ "'"
  | None => query
  end.

(** lines 41-58 *)
Definition list_files (extension : option string) : M list_response :=
  let query := list_query extension in
  results <- execute
    (files_list drive_service query "drive"
                "files(id, name, mimeType, modifiedTime)")
    (EList query "drive" "files(id, name, mimeType, modifiedTime)") ;;
  let files := default [] results in
  ret {| count := length files; files := files |}.

(** [downloader.next_chunk()]: fetch from the current offset, write what
    came to the file object, report whether the transfer is done. *)
Definition next_chunk (d : MediaIoBaseDownload) : M (MediaIoBaseDownload * bool) :=
  r <- execute (files_get_media drive_service (dl_request d) (dl_progress d))
               (EGetMedia (dl_request d) (dl_progress d)) ;;
  ret (advance d r.1, r.2).

(** [done = False; while not done: status, done = downloader.next_chunk()]
    (lines 74-76).  [None]: the loop has not exited within [fuel] rounds. *)
Fixpoint chunk_loop (fuel : nat) (d : MediaIoBaseDownload) (w : world)
  : option (outcome MediaIoBaseDownload * world) :=
  match fuel with
  | 0 => None
  | S fuel =>
    match next_chunk d w with
    | (Raises e, w') => Some (Raises e, w')
    | (Returns (d', done), w') =>
      if done : bool then Some (Returns d', w') else chunk_loop fuel d' w'
    end
  end.

(** lines 78-86: what follows the loop inside the [try]. *)
Definition download_rest (file_id : string) (d : MediaIoBaseDownload)
  : M StreamingResponse :=
  let fh := BytesIO_seek (dl_fd d) 0 in
  file <- execute (files_get drive_service file_id "name")
                  (EGet file_id "name") ;;
  let filename := file !! "name" in
  lift (StreamingResponse_new fh "application/octet-stream"
          [("Content-Disposition", "attachment; filename=" +:+ fmt filename)]).

(** lines 63-89 *)
Definition download_file (fuel : nat) (file_id : string) (w : world)
  : option (outcome StreamingResponse * world) :=
  let fh := BytesIO_new [] in
  let downloader :=
    {| dl_fd := fh; dl_request := file_id; dl_progress := 0 |} in
  match chunk_loop fuel downloader w with
  | None => None
  | Some (Raises e, w') => Some (reraise (Raises e), w')
  | Some (Returns d, w') => Some (try_except (download_rest file_id d) w')
  end.

(** lines 94-122 *)
Definition upload_file (file : UploadFile) : M upload_response :=
  try_except (
    let file_content := content file in
    let fh := BytesIO_new file_content in
    let file_metadata :=
      {| b_name := Some (filename file); b_parents := Some [FOLDER_ID] |} in
    let media := {| fd := fh; mimetype := content_type file |} in
    uploaded_file <- execute
      (files_create drive_service file_metadata media "id, name")
      (ECreate file_metadata media "id, name") ;;
    ret {| up_id := uploaded_file !! "id";
           up_name := uploaded_file !! "name" |}).

(** lines 127-137 *)
Definition delete_file (file_id : string) : M message_response :=
  try_except (
    _ <- execute (files_delete drive_service file_id) (EDelete file_id) ;;
    ret {| message := "File " +:+ file_id +:+ " deleted successfully" |}).

(** lines 141-155 *)
Definition rename_file (file_id new_name : string) : M rename_response :=
  try_except (
    let body := {| b_name := Some new_name; b_parents := None |} in
    updated_file <- execute
      (files_update drive_service file_id body "id, name")
      (EUpdate file_id body "id, name") ;;
    i <- getitem updated_file "id" ;;
    n <- getitem updated_file "name" ;;
    ret {| rn_id := i; rn_new_name := n |}).

End Handlers.

Arguments world R : clear implicits.

(** ** Reading a transcript *)

(** The exception of an exchange whose call raised. *)
Definition failure (ev : event) : option exn :=
  match ev with
  | EList _ _ _ (Raises e) | EGetMedia _ _ (Raises e) | EGet _ _ (Raises e)
  | ECreate _ _ _ (Raises e) | EDelete _ (Raises e) | EUpdate _ _ _ (Raises e) =>
    Some e
  | _ => None
  end.

(** The exchanges of a media download in which every fetch succeeded: fetch
    after fetch, each from the offset the earlier ones reached. *)
Fixpoint fetches (fileId : string) (progress : nat)
    (replies : list (list byte * bool)) : list event :=
  match replies with
  | [] => []
  | r :: replies =>
    EGetMedia fileId progress (Returns r)
    :: fetches fileId (progress + length r.1) replies
  end.

(** The exchange [ev] took place between the worlds [w] and [w']. *)
Definition during {R : Type} (w w' : world R) (ev : event) : Prop :=
  exists evs, transcript w' = transcript w ++ evs /\ ev ∈ evs.

(** An operation surfaces the failures of its exchanges: whichever exchange
    raised, the outcome is the HTTP 500 error carrying that exception's
    string form. *)
Definition surfaces {R A : Type} (w : world R) (res : outcome A * world R)
  : Prop :=
  forall ev e, during w res.2 ev -> failure ev = Some e ->
    res.1 = Raises (HTTPException 500 (str e)).

(** The downloader after the fetches answered by [replies]. *)
Definition feed (d : MediaIoBaseDownload) (replies : list (list byte * bool))
  : MediaIoBaseDownload :=
  fold_left (fun d r => advance d r.1) replies d.

(** The bytes of the chunks, in the order fetched. *)
Definition received (replies : list (list byte * bool)) : list byte :=
  concat (fst <$> replies).

(** A transfer that completes: the service answers the fetches of a download,
    one after the other, with chunks, and reports completion with the last. *)
Inductive transfer {R : Type} (drive_service : DriveService R) (fileId : string)
  : nat -> R -> list (list byte * bool) -> R -> Prop :=
| transfer_done progress r chunk r' :
    files_get_media drive_service fileId progress r = (Returns (chunk, true), r') ->
    transfer drive_service fileId progress r [(chunk, true)] r'
| transfer_more progress r chunk r' replies r'' :
    files_get_media drive_service fileId progress r = (Returns (chunk, false), r') ->
    transfer drive_service fileId (progress + length chunk) r' replies r'' ->
    transfer drive_service fileId progress r ((chunk, false) :: replies) r''.

(** A transfer that breaks off: the service answers some fetches with chunks,
    none of them the last, and then a fetch raises. *)
Inductive interrupted {R : Type} (drive_service : DriveService R)
    (fileId : string) : nat -> R -> list (list byte * bool) -> exn -> R -> Prop :=
| interrupted_now progress r e r' :
    files_get_media drive_service fileId progress r = (Raises e, r') ->
    interrupted drive_service fileId progress r [] e r'
| interrupted_later progress r chunk r' replies e r'' :
    files_get_media drive_service fileId progress r = (Returns (chunk, false), r') ->
    interrupted drive_service fileId (progress + length chunk) r' replies e r'' ->
    interrupted drive_service fileId progress r ((chunk, false) :: replies) e r''.

(** ** A model of the remote service *)

(** Modelled from the spec: the remote storage service.  It is not part of the
    repository, which reaches it through the SDK; the spec describes it as
    the owner of the files (identifier, name, MIME type, modification time,
    parent folders, trashed or not, content), answering a list call with the
    files a filter expression selects, a delete of an unknown identifier with
    a not-found failure, and so on. *)
Module Drive.

(** A stored file. *)
Record file := {
  name : string;
  mimeType : string;
  modifiedTime : string;
  parents : list string;
  trashed : bool;
  data : list byte
}.

(** The state of the service: the files by identifier, and a clock that
    stamps modifications. *)
Record state := { store : gmap string file; clock : nat }.

(** *** Literals *)

Definition quote : ascii := "'"%char.
Definition backslash : ascii := "\"%char.
Definition space : ascii := " "%char.

(** No quote and no backslash: the text of the string is its own literal. *)
Fixpoint plain (s : string) : bool :=
  match s with
  | EmptyString => true
  | String c s' =>
    negb (Ascii.eqb c quote) && negb (Ascii.eqb c backslash) && plain s'
  end.

(** *** The filter expressions of [files.list] *)

Inductive token := TLit (s : string) | TWord (s : string).

Inductive lex_mode :=
| Between
| InWord (w : string)
| InLit (l : string)
| InEscape (l : string).

(** Reading one character.  Words are separated by spaces; a literal is
    enclosed in single quotes, with a backslash escaping the character after
    it. *)
Definition lex_step (m : lex_mode) (c : ascii) : lex_mode * list token :=
  match m with
  | Between =>
    if Ascii.eqb c space then (Between, [])
    else if Ascii.eqb c quote then (InLit EmptyString, [])
    else (InWord (String c EmptyString), [])
  | InWord w =>
    if Ascii.eqb c space then (Between, [TWord w])
    else if Ascii.eqb c quote then (InLit EmptyString, [TWord w])
    else (InWord (snoc w c), [])
  | InLit l =>
    if Ascii.eqb c quote then (Between, [TLit l])
    else if Ascii.eqb c backslash then (InEscape l, [])
    else (InLit (snoc l c), [])
  | InEscape l => (InLit (snoc l c), [])
  end.

Fixpoint lex_run (m : lex_mode) (s : string) : lex_mode * list token :=
  match s with
  | EmptyString => (m, [])
  | String c s' =>
    let '(m1, out1) := lex_step m c in
    let '(m2, out2) := lex_run m1 s' in
    (m2, out1 ++ out2)
  end.

(** At the end of the text a word ends; an open literal is an error. *)
Definition lex_end (m : lex_mode) : option (list token) :=
  match m with
  | Between => Some []
  | InWord w => Some [TWord w]
  | InLit _ | InEscape _ => None
  end.

Definition lex (s : string) : option (list token) :=
  let '(m, out) := lex_run Between s in
  app out <$> lex_end m.

(** The terms the service understands in this model. *)
Inductive term :=
| InParents (p : string)
| TrashedIs (b : bool)
| NameContains (s : string).

Definition parse_term (a b c : token) : option term :=
  match a, b, c with
  | TLit p, TWord x, TWord y =>
    if String.eqb x "in" && String.eqb y "parents" then Some (InParents p)
    else None
  | TWord x, TWord y, TWord z =>
    if String.eqb x "trashed" && String.eqb y "=" then
      if String.eqb z "false" then Some (TrashedIs false)
      else if String.eqb z "true" then Some (TrashedIs true)
      else None
    else None
  | TWord x, TWord y, TLit l =>
    if String.eqb x "name" && String.eqb y "contains" then Some (NameContains l)
    else None
  | _, _, _ => None
  end.

(** A query is a conjunction: terms joined by [and]. *)
Fixpoint parse (ts : list token) : option (list term) :=
  match ts with
  | a :: b :: c :: rest =>
    match parse_term a b c with
    | None => None
    | Some t =>
      match rest with
      | [] => Some [t]
      | TWord w :: rest' =>
        if String.eqb w "and" then cons t <$> parse rest' else None
      | TLit _ :: _ => None
      end
    end
  | _ => None
  end.

Definition sat (f : file) (t : term) : bool :=
  match t with
  | InParents p => bool_decide (p ∈ parents f)
  | TrashedIs b => Bool.eqb (trashed f) b
  | NameContains l => contains (name f) l
  end.

(** Modelled from the spec: the files a filter expression selects, or [None]
    for an expression that is not well formed. *)
Definition selects (q : string) : option (file -> bool) :=
  match lex q with
  | None => None
  | Some ts =>
    match parse ts with
    | None => None
    | Some terms => Some (fun f => forallb (sat f) terms)
    end
  end.

(** *** Field masks *)

Definition is_separator (c : ascii) : bool :=
  Ascii.eqb c ","%char || Ascii.eqb c "("%char || Ascii.eqb c ")"%char
  || Ascii.eqb c space.

(** The names in a field mask. *)
Fixpoint mask_go (cur : string) (s : string) : list string :=
  match s with
  | EmptyString =>
    if String.eqb cur EmptyString then [] else [cur]
  | String c s' =>
    if is_separator c then
      (if String.eqb cur EmptyString then [] else [cur]) ++ mask_go EmptyString s'
    else mask_go (snoc cur c) s'
  end.

Definition mask : string -> list string := mask_go EmptyString.

Definition field (i : string) (f : file) (k : string) : option string :=
  if String.eqb k "id" then Some i
  else if String.eqb k "name" then Some (name f)
  else if String.eqb k "mimeType" then Some (mimeType f)
  else if String.eqb k "modifiedTime" then Some (modifiedTime f)
  else None.

(** The resource of a file, restricted to the fields asked for. *)
Definition project (fields : list string) (i : string) (f : file) : resource :=
  list_to_map (omap (fun k => pair k <$> field i f k) fields).

(** The fields the list operation asks for. *)
Definition listing_fields : list string :=
  ["id"; "name"; "mimeType"; "modifiedTime"].

(** *** What the list operation is meant to select *)

(** A file that is not trashed, has the folder among its parents and, when a
    non-empty extension is given, has a name in which a dot followed by the
    extension occurs. *)
Definition wanted (FOLDER_ID : string) (extension : option string) (f : file)
  : bool :=
  bool_decide (FOLDER_ID ∈ parents f) && negb (trashed f) &&
  match extension with
  | Some ext =>
    bool_decide (ext = EmptyString) || contains (name f) (String "." ext)
  | None => true
  end.

(** The terms of the query that asks for those files. *)
Definition query_terms (FOLDER_ID : string) (extension : option string)
  : list term :=
  [InParents FOLDER_ID; TrashedIs false] ++
  match extension with
  | Some ext =>
    if bool_decide (ext = EmptyString) then []
    else [NameContains (String "." ext)]
  | None => []
  end.

(** *** The calls *)

Definition not_found (fileId : string) : exn :=
  RemoteError ("File not found: " +:+ fileId +:+ ".").

Definition invalid_query : exn := RemoteError "Invalid Value".

Section Service.

(** How many bytes one ranged fetch of a media download brings. *)
Variable chunksize : nat.

(** Modelled from the spec: the list call, which answers with the files the
    filter expression selects, restricted to the fields asked for. *)
Definition on_list (q spaces fields : string) (st : state)
  : outcome (option (list resource)) * state :=
  match selects q with
  | None => (Raises invalid_query, st)
  | Some p =>
    match mask fields with
    | "files" :: inner =>
      (Returns (Some ((fun '(i, f) => project inner i f) <$>
                      filter (fun '(i, f) => p f = true) (map_to_list (store st)))),
       st)
    | _ => (Returns None, st)
    end
  end.

(** Modelled from the spec: one fetch of a media download, which brings the
    next [chunksize] bytes of the content from the offset on and says
    whether the end of the content is reached. *)
Definition on_get_media (fileId : string) (progress : nat) (st : state)
  : outcome (list byte * bool) * state :=
  match store st !! fileId with
  | None => (Raises (not_found fileId), st)
  | Some f =>
    let chunk := take chunksize (drop progress (data f)) in
    (Returns (chunk, bool_decide (length (data f) ≤ progress + length chunk)), st)
  end.

(** Modelled from the spec: the metadata call. *)
Definition on_get (fileId fields : string) (st : state)
  : outcome resource * state :=
  match store st !! fileId with
  | None => (Raises (not_found fileId), st)
  | Some f => (Returns (project (mask fields) fileId f), st)
  end.

(** Modelled from the spec: the create call, which stores the content under
    a new identifier, with the name and parents of the body. *)
Definition on_create (body : file_body) (media_body : MediaIoBaseUpload)
    (fields : string) (st : state) : outcome resource * state :=
  let i := fresh (dom (store st)) in
  let f := {| name := default "Untitled" (b_name body);
              mimeType := mimetype media_body;
              modifiedTime := pretty (clock st);
              parents := default ["root"] (b_parents body);
              trashed := false;
              data := buf (fd media_body) |} in
  (Returns (project (mask fields) i f),
   {| store := <[i := f]> (store st); clock := S (clock st) |}).

(** Modelled from the spec: the delete call, which removes the file, and
    fails with not found for an identifier the service does not hold. *)
Definition on_delete (fileId : string) (st : state) : outcome unit * state :=
  match store st !! fileId with
  | None => (Raises (not_found fileId), st)
  | Some _ =>
    (Returns (), {| store := delete fileId (store st); clock := S (clock st) |})
  end.

(** Modelled from the spec: the metadata update, which gives the file the
    name of the body, and fails with not found for an identifier the service
    does not hold. *)
Definition on_update (fileId : string) (body : file_body) (fields : string)
    (st : state) : outcome resource * state :=
  match store st !! fileId with
  | None => (Raises (not_found fileId), st)
  | Some f =>
    let f' := {| name := default (name f) (b_name body);
                 mimeType := mimeType f;
                 modifiedTime := pretty (clock st);
                 parents := parents f;
                 trashed := trashed f;
                 data := data f |} in
    (Returns (project (mask fields) fileId f'),
     {| store := <[fileId := f']> (store st); clock := S (clock st) |})
  end.

Definition service : DriveService state :=
  {| files_list := on_list;
     files_get_media := on_get_media;
     files_get := on_get;
     files_create := on_create;
     files_delete := on_delete;
     files_update := on_update |}.

End Service.

End Drive.

(** ** A small remote state to run the handlers on *)

Module Example.

Definition report : Drive.file :=
  {| Drive.name := "a.pdf"; Drive.mimeType := "application/pdf";
     Drive.modifiedTime := "0"; Drive.parents := ["F"];
     Drive.trashed := false; Drive.data := [x61; x62; x63] |}.

Definition notes : Drive.file :=
  {| Drive.name := "b.txt"; Drive.mimeType := "text/plain";
     Drive.modifiedTime := "0"; Drive.parents := ["F"];
     Drive.trashed := false; Drive.data := [] |}.

Definition drive : Drive.state :=
  {| Drive.store := {[ "1" := report; "2" := notes ]}; Drive.clock := 1 |}.

Definition start : world Drive.state :=
  {| remote := drive; transcript := [] |}.

(** Media downloads come two bytes at a time. *)
Definition service : DriveService Drive.state := Drive.service 2.

(** An extension with quotes in it. *)
Definition quoted_extension : string := "' and name contains 'a".

End Example.

(** ** A service that replies with a fixed resource *)

Module Stub.

(** Every metadata, create and update call is answered with [reply]; a
    listing has no ["files"] key, a media download is complete at once with
    no bytes.  The service keeps no state. *)
Definition replying (reply : resource) : DriveService unit :=
  {| files_list := fun _ _ _ r => (Returns None, r);
     files_get_media := fun _ _ r => (Returns ([], true), r);
     files_get := fun _ _ r => (Returns reply, r);
     files_create := fun _ _ _ r => (Returns reply, r);
     files_delete := fun _ r => (Returns (), r);
     files_update := fun _ _ _ r => (Returns reply, r) |}.

(** Every metadata, create, update and delete call raises [e]; a media
    download is complete at once with no bytes. *)
Definition refusing (e : exn) : DriveService unit :=
  {| files_list := fun _ _ _ r => (Raises e, r);
     files_get_media := fun _ _ r => (Returns ([], true), r);
     files_get := fun _ _ r => (Raises e, r);
     files_create := fun _ _ _ r => (Raises e, r);
     files_delete := fun _ r => (Raises e, r);
     files_update := fun _ _ _ r => (Raises e, r) |}.

Definition start : world unit := {| remote := (); transcript := [] |}.

(** A name whose first character, o with double acute (U+0151), is not in
    latin-1. *)
Definition hungarian_name : string :=
  String (ascii_of_nat 197) (String (ascii_of_nat 145) ".pdf").

End Stub.


(** * Properties *)

(** Unfold the monad down to the calls of the service. *)
Ltac step :=
  unfold try_except, bind, execute, ret, raise, lift, getitem in *; simpl in *.

(** ** The handlers, over any remote service *)

Section HandlerFacts.

Context {R : Type}.
Variable drive_service : DriveService R.
Variable FOLDER_ID : string.

Implicit Types (w : world R) (e : exn) (ev : event).

(** *** Listing *)

(** C6: in every response of the list operation, [count] is the length of
    [files]. *)
Theorem list_files_count (extension : option string) w :
  match (list_files drive_service FOLDER_ID extension w).1 with
  | Returns resp => count resp = length (files resp)
  | Raises _ => True
  end.
Proof.
  unfold list_files. step.
  destruct (files_list _ _ _ _ _) as [[results|e] r']; simpl; [|exact I].
  destruct results as [fs|]; reflexivity.
Qed.

(** The list operation is one [list] call with the query of [list_query]. *)
Lemma list_files_call (extension : option string) w :
  exists reply r',
    files_list drive_service (list_query FOLDER_ID extension) "drive"
      "files(id, name, mimeType, modifiedTime)" (remote w) = (reply, r') /\
    (list_files drive_service FOLDER_ID extension w).2 =
      {| remote := r';
         transcript := transcript w ++
           [EList (list_query FOLDER_ID extension) "drive"
                  "files(id, name, mimeType, modifiedTime)" reply] |} /\
    (list_files drive_service FOLDER_ID extension w).1 =
      match reply with
      | Returns results =>
        Returns {| count := length (default [] results);
                   files := default [] results |}
      | Raises e => Raises e
      end.
Proof.
  unfold list_files. step.
  destruct (files_list _ _ _ _ _) as [[results|e] r'] eqn:E; simpl; eauto.
Qed.

(** *** Uploading *)

(** C5: an upload is one [create] call whose metadata names the file as the
    payload declares it and gives the configured folder as the only parent;
    when the call succeeds the operation returns the identifier and the name
    found in the reply of the service. *)
Theorem upload_file_create (file : UploadFile) w :
  let file_metadata :=
    {| b_name := Some (filename file); b_parents := Some [FOLDER_ID] |} in
  let media :=
    {| fd := BytesIO_new (content file); mimetype := content_type file |} in
  exists reply r',
    files_create drive_service file_metadata media "id, name" (remote w)
      = (reply, r') /\
    (upload_file drive_service FOLDER_ID file w).2 =
      {| remote := r';
         transcript := transcript w ++
           [ECreate file_metadata media "id, name" reply] |} /\
    (upload_file drive_service FOLDER_ID file w).1 =
      match reply with
      | Returns uploaded =>
        Returns {| up_id := uploaded !! "id"; up_name := uploaded !! "name" |}
      | Raises e => Raises (HTTPException 500 (str e))
      end.
Proof.
  intros file_metadata media. unfold upload_file. step.
  fold file_metadata media.
  destruct (files_create _ _ _ _ _) as [[d|e] r'] eqn:E; simpl.
  - exists (Returns d), r'. auto.
  - exists (Raises e), r'. auto.
Qed.

(** *** Downloading *)

Lemma BytesIO_write_at_end (fh : BytesIO) (data : list byte) :
  pos fh = length (buf fh) ->
  BytesIO_write fh data =
    {| buf := buf fh ++ data; pos := length (buf fh ++ data) |}.
Proof.
  intros Hpos. unfold BytesIO_write. rewrite Hpos, length_app. f_equal.
  rewrite firstn_all, Nat.sub_diag. simpl.
  rewrite drop_ge by lia. by rewrite app_nil_r.
Qed.

Lemma received_cons (r : list byte * bool) replies :
  received (r :: replies) = r.1 ++ received replies.
Proof. reflexivity. Qed.

(** Feeding a downloader whose file object is written at its end appends
    the chunks received. *)
Lemma feed_at_end replies : forall d,
  pos (dl_fd d) = length (buf (dl_fd d)) ->
  feed d replies =
    {| dl_fd := {| buf := buf (dl_fd d) ++ received replies;
                   pos := length (buf (dl_fd d) ++ received replies) |};
       dl_request := dl_request d;
       dl_progress := dl_progress d + length (received replies) |}.
Proof.
  induction replies as [|r replies IH]; intros d Hpos.
  - unfold feed, received. simpl. rewrite app_nil_r, Nat.add_0_r, <- Hpos.
    by destruct d as [[? ?] ? ?].
  - change (feed d (r :: replies)) with (feed (advance d r.1) replies).
    assert (Hw : dl_fd (advance d r.1) =
              {| buf := buf (dl_fd d) ++ r.1;
                 pos := length (buf (dl_fd d) ++ r.1) |})
      by (simpl; by apply BytesIO_write_at_end).
    rewrite IH by (by rewrite Hw).
    rewrite Hw, received_cons. simpl.
    rewrite <- !app_assoc, !length_app. f_equal. lia.
Qed.

(** A round of the loop. *)
Lemma next_chunk_eq (d : MediaIoBaseDownload) w :
  next_chunk drive_service d w =
    match files_get_media drive_service (dl_request d) (dl_progress d) (remote w) with
    | (Returns r, r') =>
      (Returns (advance d r.1, r.2),
       {| remote := r';
          transcript := transcript w ++
            [EGetMedia (dl_request d) (dl_progress d) (Returns r)] |})
    | (Raises e, r') =>
      (Raises e,
       {| remote := r';
          transcript := transcript w ++
            [EGetMedia (dl_request d) (dl_progress d) (Raises e)] |})
    end.
Proof.
  unfold next_chunk. step.
  by destruct (files_get_media _ _ _ _) as [[r|e] r'].
Qed.

(** A completing transfer makes the loop exit, after as many rounds as the
    transfer has fetches. *)
Lemma chunk_loop_transfer fileId progress r replies r' :
  transfer drive_service fileId progress r replies r' ->
  forall d w fuel,
    dl_request d = fileId -> dl_progress d = progress -> remote w = r ->
    length replies <= fuel ->
    chunk_loop drive_service fuel d w =
      Some (Returns (feed d replies),
            {| remote := r';
               transcript := transcript w ++ fetches fileId progress replies |}).
Proof.
  induction 1 as [p r chunk r' Hget | p r chunk r' replies r'' Hget _ IH];
    intros d w fuel <- <- <- Hfuel;
    (destruct fuel as [|fuel]; [simpl in Hfuel; lia|]);
    simpl; rewrite next_chunk_eq, Hget; simpl.
  - reflexivity.
  - rewrite (IH _ _ fuel); simpl; try done; [|simpl in Hfuel; lia].
    by rewrite <- app_assoc.
Qed.

(** The loop does not exit before the transfer reports completion. *)
Lemma chunk_loop_running fileId progress r replies r' :
  transfer drive_service fileId progress r replies r' ->
  forall d w fuel,
    dl_request d = fileId -> dl_progress d = progress -> remote w = r ->
    fuel < length replies ->
    chunk_loop drive_service fuel d w = None.
Proof.
  induction 1 as [p r chunk r' Hget | p r chunk r' replies r'' Hget _ IH];
    intros d w fuel <- <- <- Hfuel;
    (destruct fuel as [|fuel]; [reflexivity|]);
    simpl in *; [lia|].
  rewrite next_chunk_eq, Hget; simpl.
  apply IH; simpl; try done. lia.
Qed.

(** What an exit of the loop tells: either every fetch succeeded and the last
    one reported completion, or a fetch raised and that is the outcome. *)
Lemma chunk_loop_exit fuel : forall d w o w',
  chunk_loop drive_service fuel d w = Some (o, w') ->
  match o with
  | Returns d' =>
    exists replies,
      transfer drive_service (dl_request d) (dl_progress d) (remote w)
               replies (remote w') /\
      transcript w' =
        transcript w ++ fetches (dl_request d) (dl_progress d) replies /\
      d' = feed d replies
  | Raises e =>
    exists replies,
      transcript w' =
        transcript w ++ fetches (dl_request d) (dl_progress d) replies ++
        [EGetMedia (dl_request d)
                   (dl_progress d + length (received replies)) (Raises e)]
  end.
Proof.
  induction fuel as [|fuel IH]; intros d w o w'; simpl; [done|].
  rewrite next_chunk_eq.
  destruct (files_get_media _ _ _ _) as [[[chunk done]|e] r1] eqn:Hget; simpl.
  - destruct done.
    + intros [= <- <-]. exists [(chunk, true)]. simpl.
      split; [by apply transfer_done|done].
    + intros Hloop. apply IH in Hloop. simpl in Hloop.
      destruct o as [d'|e].
      * destruct Hloop as (replies & Htr & Hlog & ->).
        exists ((chunk, false) :: replies). simpl.
        split; [by eapply transfer_more|].
        by rewrite Hlog, <- app_assoc.
      * destruct Hloop as (replies & Hlog).
        exists ((chunk, false) :: replies).
        rewrite Hlog, received_cons, length_app, <- !app_assoc. simpl.
        by rewrite Nat.add_assoc.
  - intros [= <- <-]. exists []. simpl.
    unfold received. simpl. by rewrite Nat.add_0_r.
Qed.

Lemma fetches_no_failure fileId replies : forall progress ev,
  ev ∈ fetches fileId progress replies -> failure ev = None.
Proof.
  induction replies as [|r replies IH]; intros progress ev; simpl.
  - by intros ?%elem_of_nil.
  - intros [->|Hin]%elem_of_cons; [done|]. by eapply IH.
Qed.

(** A fetch that raises ends the loop with that exception. *)
Lemma chunk_loop_interrupted fileId progress r replies e r' :
  interrupted drive_service fileId progress r replies e r' ->
  forall d w fuel,
    dl_request d = fileId -> dl_progress d = progress -> remote w = r ->
    length replies < fuel ->
    chunk_loop drive_service fuel d w =
      Some (Raises e,
            {| remote := r';
               transcript := transcript w ++ fetches fileId progress replies ++
                 [EGetMedia fileId (progress + length (received replies))
                            (Raises e)] |}).
Proof.
  induction 1 as [p r e r' Hget | p r chunk r' replies e r'' Hget _ IH];
    intros d w fuel <- <- <- Hfuel;
    (destruct fuel as [|fuel]; [simpl in Hfuel; lia|]);
    simpl; rewrite next_chunk_eq, Hget; simpl.
  - unfold received. simpl. by rewrite Nat.add_0_r.
  - rewrite (IH _ _ fuel); simpl; try done; [|simpl in Hfuel; lia].
    rewrite received_cons, length_app, <- !app_assoc. simpl.
    by rewrite Nat.add_assoc.
Qed.

Lemma reraise_returns {A} (o : outcome A) (a : A) :
  reraise o = Returns a -> o = Returns a.
Proof. destruct o; simpl; congruence. Qed.

Lemma StreamingResponse_new_returns content mtype hdrs resp :
  StreamingResponse_new content mtype hdrs = Returns resp ->
  resp = {| body := BytesIO_read content; media_type := mtype;
            headers := list_to_map hdrs |}.
Proof.
  unfold StreamingResponse_new. destruct (encode_headers hdrs); congruence.
Qed.

(** What follows the loop: the metadata call, then the response is built. *)
Lemma download_rest_eq (file_id : string) (d : MediaIoBaseDownload) w :
  download_rest drive_service file_id d w =
    match files_get drive_service file_id "name" (remote w) with
    | (Returns meta, r') =>
      (StreamingResponse_new (BytesIO_seek (dl_fd d) 0)
         "application/octet-stream"
         [("Content-Disposition",
           "attachment; filename=" +:+ fmt (meta !! "name"))],
       {| remote := r';
          transcript := transcript w ++ [EGet file_id "name" (Returns meta)] |})
    | (Raises e, r') =>
      (Raises e,
       {| remote := r';
          transcript := transcript w ++ [EGet file_id "name" (Raises e)] |})
    end.
Proof.
  unfold download_rest. step.
  by destruct (files_get _ _ _ _) as [[meta|e] r'].
Qed.

(** A download whose transfer completes: its outcome is decided by the
    metadata call and by the building of the response. *)
Lemma download_file_complete (file_id : string) w replies (r1 : R) reply
    (r2 : R) (fuel : nat) :
  transfer drive_service file_id 0 (remote w) replies r1 ->
  files_get drive_service file_id "name" r1 = (reply, r2) ->
  length replies <= fuel ->
  download_file drive_service fuel file_id w =
    Some (reraise
            match reply with
            | Returns meta =>
              StreamingResponse_new
                {| buf := received replies; pos := 0 |}
                "application/octet-stream"
                [("Content-Disposition",
                  "attachment; filename=" +:+ fmt (meta !! "name"))]
            | Raises e => Raises e
            end,
          {| remote := r2;
             transcript := transcript w ++ fetches file_id 0 replies ++
               [EGet file_id "name" reply] |}).
Proof.
  intros Htr Hget Hfuel. unfold download_file.
  erewrite chunk_loop_transfer by (done || exact Htr).
  unfold try_except. rewrite download_rest_eq. simpl. rewrite Hget.
  rewrite feed_at_end by done. simpl.
  destruct reply as [meta|e]; simpl; by rewrite <- app_assoc.
Qed.

(** A download in which a fetch raises. *)
Lemma download_file_interrupted (file_id : string) w replies e (r' : R)
    (fuel : nat) :
  interrupted drive_service file_id 0 (remote w) replies e r' ->
  length replies < fuel ->
  download_file drive_service fuel file_id w =
    Some (Raises (HTTPException 500 (str e)),
          {| remote := r';
             transcript := transcript w ++ fetches file_id 0 replies ++
               [EGetMedia file_id (length (received replies)) (Raises e)] |}).
Proof.
  intros Hint Hfuel. unfold download_file.
  erewrite chunk_loop_interrupted by (done || exact Hint). reflexivity.
Qed.

(** C9: when the transfer completes, the chunk loop of the download exits; it
    takes one round per fetch, no less, and leaves in the buffer the chunks
    fetched, one after the other. *)
Theorem chunk_loop_terminates (file_id : string) w replies (r' : R) :
  transfer drive_service file_id 0 (remote w) replies r' ->
  let downloader :=
    {| dl_fd := BytesIO_new []; dl_request := file_id; dl_progress := 0 |} in
  (forall fuel, length replies <= fuel ->
     chunk_loop drive_service fuel downloader w =
       Some (Returns {| dl_fd := {| buf := received replies;
                                    pos := length (received replies) |};
                        dl_request := file_id;
                        dl_progress := length (received replies) |},
             {| remote := r';
                transcript := transcript w ++ fetches file_id 0 replies |})) /\
  (forall fuel, fuel < length replies ->
     chunk_loop drive_service fuel downloader w = None).
Proof.
  intros Htr downloader. split; intros fuel Hfuel.
  - erewrite chunk_loop_transfer by (done || exact Htr).
    by rewrite feed_at_end.
  - by eapply chunk_loop_running.
Qed.

(** C4: the response of a download that succeeds carries the chunks fetched
    for the file, one after the other, as an octet stream, and a
    Content-Disposition header built from the name that a metadata call for
    the same file, made after the transfer, replied with. *)
Theorem download_file_response (fuel : nat) (file_id : string) w resp w' :
  download_file drive_service fuel file_id w = Some (Returns resp, w') ->
  exists replies meta r1,
    transfer drive_service file_id 0 (remote w) replies r1 /\
    files_get drive_service file_id "name" r1 = (Returns meta, remote w') /\
    transcript w' =
      transcript w ++ fetches file_id 0 replies ++
      [EGet file_id "name" (Returns meta)] /\
    body resp = received replies /\
    media_type resp = "application/octet-stream" /\
    headers resp =
      {[ "Content-Disposition" :=
           "attachment; filename=" +:+ fmt (meta !! "name") ]}.
Proof.
  unfold download_file.
  destruct (chunk_loop _ _ _ _) as [[[d|e] w1]|] eqn:Hloop; [|done..].
  apply chunk_loop_exit in Hloop. simpl in Hloop.
  destruct Hloop as (replies & Htr & Hlog & ->).
  unfold try_except. rewrite download_rest_eq.
  destruct (files_get _ _ _ _) as [[meta|e] r2] eqn:Hget; simpl; [|done].
  intros [= Hresp <-]. apply reraise_returns in Hresp.
  apply StreamingResponse_new_returns in Hresp as ->. simpl.
  exists replies, meta, (remote w1). rewrite Hget, Hlog, <- app_assoc.
  repeat split; try done.
  by rewrite feed_at_end.
Qed.

(** *** Failures of the remote service *)

Lemma surfaces_intro {A} w (res : outcome A * world R) (evs : list event) :
  transcript res.2 = transcript w ++ evs ->
  (forall ev e, ev ∈ evs -> failure ev = Some e ->
     res.1 = Raises (HTTPException 500 (str e))) ->
  surfaces w res.
Proof.
  intros Hlog H ev e (evs' & Hlog' & Hin) Hfail.
  rewrite Hlog in Hlog'. apply app_inv_head in Hlog'. subst evs'. eauto.
Qed.

Lemma download_file_surfaces (fuel : nat) (file_id : string) w res :
  download_file drive_service fuel file_id w = Some res -> surfaces w res.
Proof.
  unfold download_file.
  destruct (chunk_loop _ _ _ _) as [[[d|e] w1]|] eqn:Hloop; [| |done];
    apply chunk_loop_exit in Hloop; simpl in Hloop.
  - destruct Hloop as (replies & _ & Hlog & _).
    unfold try_except. rewrite download_rest_eq.
    destruct (files_get _ _ _ _) as [[meta|e] r2]; simpl; intros [= <-];
      (eapply surfaces_intro;
       [simpl; rewrite Hlog, <- app_assoc; reflexivity|]);
      intros ev e' [Hin|Hin%list_elem_of_singleton]%elem_of_app Hfail;
      try (apply fetches_no_failure in Hin; congruence);
      subst ev; simpl in *; congruence.
  - destruct Hloop as (replies & Hlog). simpl. intros [= <-].
    eapply surfaces_intro; [exact Hlog|].
    intros ev e' [Hin|Hin%list_elem_of_singleton]%elem_of_app Hfail.
    + apply fetches_no_failure in Hin. congruence.
    + subst ev. simpl in *. congruence.
Qed.

Lemma upload_file_surfaces (file : UploadFile) w :
  surfaces w (upload_file drive_service FOLDER_ID file w).
Proof.
  unfold upload_file. step.
  destruct (files_create _ _ _ _ _) as [[d|e] r'];
    (eapply surfaces_intro; [reflexivity|]);
    intros ev e' ->%list_elem_of_singleton; simpl; congruence.
Qed.

Lemma delete_file_surfaces (file_id : string) w :
  surfaces w (delete_file drive_service file_id w).
Proof.
  unfold delete_file. step.
  destruct (files_delete _ _ _) as [[d|e] r'];
    (eapply surfaces_intro; [reflexivity|]);
    intros ev e' ->%list_elem_of_singleton; simpl; congruence.
Qed.

Lemma rename_file_surfaces (file_id new_name : string) w :
  surfaces w (rename_file drive_service file_id new_name w).
Proof.
  unfold rename_file. step.
  destruct (files_update _ _ _ _ _) as [[d|e] r']; simpl.
  - destruct (d !! "id"); simpl; [destruct (d !! "name"); simpl|];
      (eapply surfaces_intro; [reflexivity|]);
      intros ev e' ->%list_elem_of_singleton; simpl; congruence.
  - eapply surfaces_intro; [reflexivity|].
    intros ev e' ->%list_elem_of_singleton; simpl; congruence.
Qed.

(** C1: in download, upload, delete and rename, a call to the remote service
    that raises [e] makes the operation raise the HTTP error 500 whose detail
    is [str e], and nothing else: for a download, whether a fetch raises
    (after any number of fetches that succeeded) or the transfer completes
    and the metadata call raises; for upload, delete and rename, when their
    one call raises.  And whichever exchange of an operation raised, that is
    the outcome. *)
Theorem remote_failure_is_http_500 :
  (forall file_id w replies e (r' : R) fuel,
     interrupted drive_service file_id 0 (remote w) replies e r' ->
     length replies < fuel ->
     download_file drive_service fuel file_id w =
       Some (Raises (HTTPException 500 (str e)),
             {| remote := r';
                transcript := transcript w ++ fetches file_id 0 replies ++
                  [EGetMedia file_id (length (received replies)) (Raises e)] |})) /\
  (forall file_id w replies (r1 : R) e (r2 : R) fuel,
     transfer drive_service file_id 0 (remote w) replies r1 ->
     files_get drive_service file_id "name" r1 = (Raises e, r2) ->
     length replies <= fuel ->
     download_file drive_service fuel file_id w =
       Some (Raises (HTTPException 500 (str e)),
             {| remote := r2;
                transcript := transcript w ++ fetches file_id 0 replies ++
                  [EGet file_id "name" (Raises e)] |})) /\
  (forall file w e (r' : R),
     files_create drive_service
       {| b_name := Some (filename file); b_parents := Some [FOLDER_ID] |}
       {| fd := BytesIO_new (content file); mimetype := content_type file |}
       "id, name" (remote w) = (Raises e, r') ->
     (upload_file drive_service FOLDER_ID file w).1 =
       Raises (HTTPException 500 (str e))) /\
  (forall file_id w e (r' : R),
     files_delete drive_service file_id (remote w) = (Raises e, r') ->
     (delete_file drive_service file_id w).1 =
       Raises (HTTPException 500 (str e))) /\
  (forall file_id new_name w e (r' : R),
     files_update drive_service file_id
       {| b_name := Some new_name; b_parents := None |} "id, name" (remote w)
       = (Raises e, r') ->
     (rename_file drive_service file_id new_name w).1 =
       Raises (HTTPException 500 (str e))) /\
  (forall ev e, failure ev = Some e ->
     (forall fuel file_id w o w',
        download_file drive_service fuel file_id w = Some (o, w') ->
        during w w' ev -> o = Raises (HTTPException 500 (str e))) /\
     (forall file w,
        during w (upload_file drive_service FOLDER_ID file w).2 ev ->
        (upload_file drive_service FOLDER_ID file w).1
          = Raises (HTTPException 500 (str e))) /\
     (forall file_id w,
        during w (delete_file drive_service file_id w).2 ev ->
        (delete_file drive_service file_id w).1
          = Raises (HTTPException 500 (str e))) /\
     (forall file_id new_name w,
        during w (rename_file drive_service file_id new_name w).2 ev ->
        (rename_file drive_service file_id new_name w).1
          = Raises (HTTPException 500 (str e)))).
Proof.
  split; [|split; [|split; [|split; [|split]]]].
  - intros file_id w replies e r' fuel Hint Hfuel.
    by apply download_file_interrupted.
  - intros file_id w replies r1 e r2 fuel Htr Hget Hfuel.
    by rewrite (download_file_complete _ _ _ _ _ _ _ Htr Hget Hfuel).
  - intros file w e r' Hcall. unfold upload_file. step. by rewrite Hcall.
  - intros file_id w e r' Hcall. unfold delete_file. step. by rewrite Hcall.
  - intros file_id new_name w e r' Hcall. unfold rename_file. step.
    by rewrite Hcall.
  - intros ev e Hfail. repeat split.
    + intros fuel file_id w o w' Hrun Hev.
      by apply (download_file_surfaces _ _ _ _ Hrun ev e).
    + intros file w Hev. by apply (upload_file_surfaces file w ev e).
    + intros file_id w Hev. by apply (delete_file_surfaces file_id w ev e).
    + intros file_id new_name w Hev.
      by apply (rename_file_surfaces file_id new_name w ev e).
Qed.

End HandlerFacts.

(** ** Start-up *)

(** C3: when the credential-file setting or the folder setting is absent (from
    the process environment and from the [.env] file), importing the module
    raises the configuration error with no route registered and no client
    built, and no request is ever dispatched to a handler. *)
Theorem missing_setting_aborts_import
    (from_service_account_file : string -> list string -> outcome unit)
    (build : string -> string -> outcome unit)
    (environ dotenv : gmap string string) :
  (environ !! "GOOGLE_SERVICE_ACCOUNT_FILE" = None /\
   dotenv !! "GOOGLE_SERVICE_ACCOUNT_FILE" = None) \/
  (environ !! "GOOGLE_DRIVE_FOLDER_ID" = None /\
   dotenv !! "GOOGLE_DRIVE_FOLDER_ID" = None) ->
  let res :=
    Startup.import_module from_service_account_file build environ dotenv in
  res.2 = Some Startup.missing_settings /\
  Startup.routes res.1 = [] /\
  Startup.drive_service res.1 = false /\
  forall m p, Startup.served res m p = None.
Proof.
  intros Habsent res.
  assert (Hnot :
    Startup.py_not (Startup.getenv (Startup.load_dotenv environ dotenv)
                      "GOOGLE_SERVICE_ACCOUNT_FILE")
    || Startup.py_not (Startup.getenv (Startup.load_dotenv environ dotenv)
                         "GOOGLE_DRIVE_FOLDER_ID") = true).
  { unfold Startup.getenv, Startup.load_dotenv.
    destruct Habsent as [[H1 H2]|[H1 H2]].
    - rewrite (proj2 (lookup_union_None _ _ _) (conj H1 H2)). reflexivity.
    - rewrite (proj2 (lookup_union_None environ dotenv
                        "GOOGLE_DRIVE_FOLDER_ID") (conj H1 H2)).
      apply orb_true_r. }
  subst res. unfold Startup.import_module. rewrite Hnot. simpl. done.
Qed.

(** With both settings present and the client built, the routes of the
    module are served, path parameters included. *)
Lemma import_serves_routes :
  let res :=
    Startup.import_module (fun _ _ => Returns ()) (fun _ _ => Returns ())
      {[ "GOOGLE_SERVICE_ACCOUNT_FILE" := "key.json" ]}
      {[ "GOOGLE_DRIVE_FOLDER_ID" := "F" ]} in
  res.2 = None /\
  length (Startup.routes res.1) = 6 /\
  Startup.served res Startup.GET "/files" = Some Startup.list_files /\
  Startup.served res Startup.GET "/download/1" = Some Startup.download_file /\
  Startup.served res Startup.PATCH "/rename/1" = Some Startup.rename_file /\
  Startup.served res Startup.GET "/download/" = None /\
  Startup.served res Startup.POST "/files" = None.
Proof. repeat split; by vm_compute. Qed.

(** ** The model of the remote service *)

Section DriveFacts.

Import Drive.

(** *** Strings *)

Lemma append_cons (x : ascii) (a b : string) :
  String x a +:+ b = String x (a +:+ b).
Proof. reflexivity. Qed.


Lemma append_nil_r (a : string) : a +:+ EmptyString = a.
Proof.
  induction a as [|x a IH]; [done|]. rewrite append_cons. by rewrite IH.
Qed.

Lemma snoc_append (s t : string) (c : ascii) :
  snoc s c +:+ t = s +:+ String c t.
Proof.
  induction s as [|d s IH]; [done|]. simpl. rewrite !append_cons. by rewrite IH.
Qed.

Lemma startswith_spec (s p : string) :
  startswith s p = true <-> exists b, s = p +:+ b.
Proof.
  revert s. induction p as [|c p IH]; intros s; simpl.
  - split; [intros _; by exists s|done].
  - destruct s as [|d s].
    + split; [done|]. intros [b Hb]. rewrite append_cons in Hb. discriminate.
    + rewrite andb_true_iff, IH. split.
      * intros [Hc [b ->]]. apply Ascii.eqb_eq in Hc as ->. by exists b.
      * intros [b Hb]. rewrite append_cons in Hb. injection Hb as -> ->.
        rewrite Ascii.eqb_refl. eauto.
Qed.

(** [contains s p] says that [p] is a substring of [s]. *)
Lemma contains_spec (s p : string) :
  contains s p = true <-> exists a b, s = a +:+ p +:+ b.
Proof.
  induction s as [|d s IH].
  - simpl. rewrite orb_false_r, startswith_spec. split.
    + intros [b Hb]. by exists EmptyString, b.
    + intros (a & b & Hab). destruct a; [by exists b|].
      rewrite append_cons in Hab. discriminate.
  - change (contains (String d s) p)
      with (startswith (String d s) p || contains s p).
    rewrite orb_true_iff, startswith_spec, IH. split.
    + intros [[b Hb]|(a & b & ->)].
      * by exists EmptyString, b.
      * by exists (String d a), b.
    + intros ([|x a] & b & Hab).
      * left. by exists b.
      * right. rewrite append_cons in Hab. injection Hab as -> ->. eauto.
Qed.

Lemma contains_shorter (s p : string) (c : ascii) :
  contains s (String c p) = true -> contains s p = true.
Proof.
  rewrite !contains_spec. intros (a & b & ->).
  exists (snoc a c), b. rewrite snoc_append. by rewrite append_cons.
Qed.

Lemma contains_empty (s : string) : contains s EmptyString = true.
Proof. by destruct s. Qed.

(** *** Lexing the query of the list operation *)

Lemma plain_cons (c : ascii) (s : string) :
  plain (String c s) = true ->
  Ascii.eqb c quote = false /\ Ascii.eqb c backslash = false /\ plain s = true.
Proof.
  simpl. rewrite !andb_true_iff, !negb_true_iff. tauto.
Qed.

Lemma lex_run_app (a b : string) : forall m,
  lex_run m (a +:+ b) =
    let '(m1, out1) := lex_run m a in
    let '(m2, out2) := lex_run m1 b in
    (m2, out1 ++ out2).
Proof.
  induction a as [|c a IH]; intros m.
  - simpl. change (EmptyString +:+ b) with b. by destruct (lex_run m b).
  - rewrite append_cons. simpl. destruct (lex_step m c) as [m1 out1].
    rewrite IH. destruct (lex_run m1 a) as [m2 out2].
    destruct (lex_run m2 b) as [m3 out3]. by rewrite app_assoc.
Qed.

(** Inside a literal, plain text is taken as it is. *)
Lemma lex_run_plain (s : string) : forall l,
  plain s = true -> lex_run (InLit l) s = (InLit (l +:+ s), []).
Proof.
  induction s as [|c s IH]; intros l Hplain.
  - by rewrite append_nil_r.
  - apply plain_cons in Hplain as (Hq & Hb & Hplain).
    simpl. rewrite Hq, Hb, IH by done. by rewrite snoc_append.
Qed.

Lemma lex_base_query (F : string) :
  plain F = true ->
  lex_run Between ("'" +:+ F +:+ "' in parents and trashed = false") =
    (InWord "false",
     [TLit F; TWord "in"; TWord "parents"; TWord "and"; TWord "trashed";
      TWord "="]).
Proof.
  intros HF. rewrite append_cons. change (EmptyString +:+ ?x) with x.
  cbn. rewrite lex_run_app, lex_run_plain by done. reflexivity.
Qed.

Lemma selects_list_query (F : string) (extension : option string) :
  plain F = true -> plain (default EmptyString extension) = true ->
  selects (list_query F extension) =
    Some (fun f => forallb (sat f) (query_terms F extension)).
Proof.
  intros HF Hext. unfold selects, lex, list_query, query_terms.
  destruct extension as [ext|]; [case_bool_decide|].
  - rewrite lex_base_query by done. reflexivity.
  - rewrite lex_run_app, lex_base_query by done.
    rewrite lex_run_app. cbn. rewrite lex_run_app, lex_run_plain by done.
    reflexivity.
  - rewrite lex_base_query by done. reflexivity.
Qed.

Lemma query_terms_wanted (F : string) (extension : option string) (f : file) :
  forallb (sat f) (query_terms F extension) = wanted F extension f.
Proof.
  unfold query_terms, wanted.
  destruct extension as [ext|]; [case_bool_decide|]; simpl;
    rewrite ?andb_true_r;
    by destruct (bool_decide (F ∈ parents f)), (trashed f).
Qed.

(** *** The calls of the model *)

Lemma on_list_query (F : string) (extension : option string) (st : state) :
  plain F = true -> plain (default EmptyString extension) = true ->
  on_list (list_query F extension) "drive"
          "files(id, name, mimeType, modifiedTime)" st =
    (Returns (Some ((fun '(i, f) => project listing_fields i f) <$>
                    filter (fun '(i, f) =>
                              forallb (sat f) (query_terms F extension) = true)
                           (map_to_list (store st)))),
     st).
Proof.
  intros HF Hext. unfold on_list. rewrite selects_list_query by done.
  change (mask "files(id, name, mimeType, modifiedTime)")
    with ("files" :: listing_fields).
  reflexivity.
Qed.

Lemma project_listing_name (i : string) (f : file) :
  project listing_fields i f !! "name" = Some (name f).
Proof. by vm_compute. Qed.

Lemma project_id_name (i : string) (f : file) :
  project (mask "id, name") i f !! "id" = Some i /\
  project (mask "id, name") i f !! "name" = Some (name f).
Proof. split; by vm_compute. Qed.

Lemma elem_of_listing (F : string) (extension : option string) (st : state)
    (d : resource) :
  d ∈ (fun '(i, f) => project listing_fields i f) <$>
      filter (fun '(i, f) => forallb (sat f) (query_terms F extension) = true)
             (map_to_list (store st)) <->
  exists i f, store st !! i = Some f /\ wanted F extension f = true /\
              d = project listing_fields i f.
Proof.
  rewrite list_elem_of_fmap. split.
  - intros ([i f] & -> & Hin). apply list_elem_of_filter in Hin as [Hsel Hin].
    apply elem_of_map_to_list in Hin. rewrite query_terms_wanted in Hsel.
    by exists i, f.
  - intros (i & f & Hst & Hsel & ->). exists (i, f). split; [done|].
    apply list_elem_of_filter. rewrite query_terms_wanted.
    split; [done|]. by apply elem_of_map_to_list.
Qed.

Lemma wanted_name (F ext : string) (f : file) :
  wanted F (Some ext) f = true -> contains (name f) ext = true.
Proof.
  unfold wanted. rewrite !andb_true_iff, orb_true_iff.
  intros [_ [Hempty|Hdot]].
  - apply bool_decide_eq_true in Hempty as ->. apply contains_empty.
  - by eapply contains_shorter.
Qed.

(** *** Listing *)

(** For a folder identifier and an extension without quote or backslash,
    the query of the list operation selects exactly the files that
    are not trashed and have the folder among their parents and, when the
    extension is not empty, have a name containing a dot followed by the
    extension; the operation returns those files, so every returned name
    contains the extension. *)
Theorem list_files_selects (chunksize : nat) (FOLDER_ID : string)
    (extension : option string) (st : state) (log : list event) :
  plain FOLDER_ID = true -> plain (default EmptyString extension) = true ->
  let w := {| remote := st; transcript := log |} in
  let q := list_query FOLDER_ID extension in
  exists sel resp,
    selects q = Some sel /\
    (forall f, sel f = wanted FOLDER_ID extension f) /\
    list_files (service chunksize) FOLDER_ID extension w =
      (Returns resp,
       {| remote := st;
          transcript := log ++
            [EList q "drive" "files(id, name, mimeType, modifiedTime)"
                   (Returns (Some (files resp)))] |}) /\
    (forall d, d ∈ files resp <->
       exists i f, store st !! i = Some f /\ wanted FOLDER_ID extension f = true /\
                   d = project listing_fields i f) /\
    (forall d ext, d ∈ files resp -> extension = Some ext ->
       exists n, d !! "name" = Some n /\ contains n ext = true).
Proof.
  intros HF Hext w q.
  eexists (fun f => forallb (sat f) (query_terms FOLDER_ID extension)),
          {| count := _; files := _ |}.
  split; [by apply selects_list_query|].
  split; [by intros f; apply query_terms_wanted|].
  split.
  { unfold list_files. step. fold q. subst q.
    rewrite on_list_query by done. reflexivity. }
  simpl. split; [apply elem_of_listing|].
  intros d ext (i & f & Hst & Hsel & ->)%elem_of_listing ->.
  exists (name f). split; [apply project_listing_name|by eapply wanted_name].
Qed.

Lemma wanted_empty_extension (F : string) (f : file) :
  wanted F (Some EmptyString) f = true <-> F ∈ parents f /\ trashed f = false.
Proof.
  unfold wanted. simpl. rewrite andb_true_r, andb_true_iff.
  rewrite bool_decide_eq_true, negb_true_iff. tauto.
Qed.

(** C10: an extension that is the empty string adds no clause to the query:
    the call is the one made when no extension is given, and the files
    returned are the files of the folder that are not trashed, all of them,
    whatever their names. *)
Theorem empty_extension_is_no_filter {R : Type} (drive_service : DriveService R)
    (FOLDER_ID : string) (w : world R) :
  list_query FOLDER_ID (Some EmptyString) =
    "'" +:+ FOLDER_ID +:+ "' in parents and trashed = false" /\
  list_query FOLDER_ID (Some EmptyString) = list_query FOLDER_ID None /\
  list_files drive_service FOLDER_ID (Some EmptyString) w =
    list_files drive_service FOLDER_ID None w /\
  forall (chunksize : nat) (st : state) (log : list event),
    plain FOLDER_ID = true ->
    exists resp,
      (list_files (service chunksize) FOLDER_ID (Some EmptyString)
                  {| remote := st; transcript := log |}).1 = Returns resp /\
      forall d, d ∈ files resp <->
        exists i f, store st !! i = Some f /\ FOLDER_ID ∈ parents f /\
                    trashed f = false /\ d = project listing_fields i f.
Proof.
  repeat split.
  intros chunksize st log HF.
  eexists {| count := _; files := _ |}. split.
  { unfold list_files. step.
    rewrite (on_list_query FOLDER_ID (Some EmptyString)) by done. reflexivity. }
  intros d.
  etransitivity; [apply (elem_of_listing FOLDER_ID (Some EmptyString) st d)|].
  split; intros (i & f & Hst & H); exists i, f; split; try done.
  - destruct H as [Hw ->]. apply wanted_empty_extension in Hw. tauto.
  - destruct H as (Hin & Htr & ->). split; [|done].
    by apply wanted_empty_extension.
Qed.

(** *** Renaming and deleting *)

(** C7: renaming a file that the service holds twice to the same name
    succeeds both times, and the file carries that name after the first call
    and after the second. *)
Theorem rename_file_twice (chunksize : nat) (file_id new_name : string)
    (st : state) (log : list event) (f : file) :
  store st !! file_id = Some f ->
  let first :=
    rename_file (service chunksize) file_id new_name
                {| remote := st; transcript := log |} in
  let second := rename_file (service chunksize) file_id new_name first.2 in
  first.1 = Returns {| rn_id := file_id; rn_new_name := new_name |} /\
  second.1 = Returns {| rn_id := file_id; rn_new_name := new_name |} /\
  name <$> store (remote first.2) !! file_id = Some new_name /\
  name <$> store (remote second.2) !! file_id = Some new_name.
Proof.
  intros Hst first second.
  assert (Hrename : forall st0 log0 f0, store st0 !! file_id = Some f0 ->
            let res := rename_file (service chunksize) file_id new_name
                         {| remote := st0; transcript := log0 |} in
            res.1 = Returns {| rn_id := file_id; rn_new_name := new_name |} /\
            name <$> store (remote res.2) !! file_id = Some new_name).
  { intros st0 log0 f0 Hst0. unfold rename_file. step.
    unfold on_update. rewrite Hst0. simpl.
    pose proof (project_id_name file_id
      {| name := new_name; mimeType := mimeType f0;
         modifiedTime := pretty (clock st0); parents := parents f0;
         trashed := trashed f0; data := data f0 |}) as [Hid Hname].
    rewrite Hid. simpl. rewrite Hname. simpl.
    split; [done|]. by rewrite lookup_insert_eq. }
  destruct (Hrename st log f Hst) as [H1 H1']. fold first in H1, H1'.
  subst second. clearbody first. destruct first as [o1 [st1 log1]].
  simpl in *.
  apply fmap_Some in H1' as (f1 & Hst1 & Hname).
  destruct (Hrename st1 log1 f1 Hst1) as [H2 H2'].
  rewrite Hst1. simpl. by rewrite <- Hname.
Qed.

(** C8: deleting a file that the service holds succeeds with the
    confirmation message; deleting it again raises the HTTP error 500 that
    carries the not-found failure of the service. *)
Theorem delete_file_twice (chunksize : nat) (file_id : string)
    (st : state) (log : list event) (f : file) :
  store st !! file_id = Some f ->
  let first :=
    delete_file (service chunksize) file_id
                {| remote := st; transcript := log |} in
  let second := delete_file (service chunksize) file_id first.2 in
  first.1 =
    Returns {| message := "File " +:+ file_id +:+ " deleted successfully" |} /\
  store (remote first.2) !! file_id = None /\
  second.1 = Raises (HTTPException 500 (str (not_found file_id))).
Proof.
  intros Hst first second. subst first second.
  unfold delete_file. step. unfold on_delete. rewrite Hst. simpl.
  rewrite lookup_delete_eq. done.
Qed.

End DriveFacts.

(** ** The theorems at work on the example *)

(** Downloading and deleting a file the example service does not hold, and
    downloading from a service whose metadata call raises. *)
Lemma remote_failure_is_http_500_witness :
  download_file Example.service 1 "9" Example.start =
    Some (Raises (HTTPException 500 "File not found: 9."),
          {| remote := Example.drive;
             transcript := [EGetMedia "9" 0 (Raises (Drive.not_found "9"))] |}) /\
  download_file (Stub.refusing (RemoteError "forbidden")) 1 "1" Stub.start =
    Some (Raises (HTTPException 500 "forbidden"),
          {| remote := ();
             transcript := [EGetMedia "1" 0 (Returns ([], true));
                            EGet "1" "name" (Raises (RemoteError "forbidden"))] |}) /\
  (delete_file Example.service "9" Example.start).1 =
    Raises (HTTPException 500 "File not found: 9.").
Proof.
  split; [|split].
  - apply (proj1 (remote_failure_is_http_500 Example.service "F")
             "9" Example.start [] (Drive.not_found "9") Example.drive 1).
    + apply interrupted_now. by vm_compute.
    + simpl. lia.
  - apply (proj1 (proj2 (remote_failure_is_http_500
                           (Stub.refusing (RemoteError "forbidden")) "F"))
             "1" Stub.start [([], true)] () (RemoteError "forbidden") () 1).
    + by apply transfer_done.
    + reflexivity.
    + simpl. lia.
  - apply (proj1 (proj2 (proj2 (proj2
             (remote_failure_is_http_500 Example.service "F"))))
             "9" Example.start (Drive.not_found "9") Example.drive).
    by vm_compute.
Defined.

(** An environment with the folder setting only. *)
Lemma missing_setting_aborts_import_witness :
  (Startup.import_module (fun _ _ => Returns ()) (fun _ _ => Returns ())
     {[ "GOOGLE_DRIVE_FOLDER_ID" := "F" ]} ∅).2
    = Some Startup.missing_settings /\
  forall m p,
    Startup.served
      (Startup.import_module (fun _ _ => Returns ()) (fun _ _ => Returns ())
         {[ "GOOGLE_DRIVE_FOLDER_ID" := "F" ]} ∅) m p = None.
Proof.
  destruct (missing_setting_aborts_import
              (fun _ _ => Returns ()) (fun _ _ => Returns ())
              {[ "GOOGLE_DRIVE_FOLDER_ID" := "F" ]} ∅) as (H1 & _ & _ & H2).
  - left. split; by vm_compute.
  - split; [exact H1|exact H2].
Defined.

(** Downloading the three bytes of the first example file. *)
Lemma download_file_response_witness :
  download_file Example.service 5 "1" Example.start =
    Some (Returns {| body := [x61; x62; x63];
                     media_type := "application/octet-stream";
                     headers := {[ "Content-Disposition" :=
                                     "attachment; filename=a.pdf" ]} |},
          {| remote := Example.drive;
             transcript :=
               [EGetMedia "1" 0 (Returns ([x61; x62], false));
                EGetMedia "1" 2 (Returns ([x63], true));
                EGet "1" "name" (Returns {[ "name" := "a.pdf" ]})] |}) /\
  exists replies meta r1,
    transfer Example.service "1" 0 Example.drive replies r1 /\
    files_get Example.service "1" "name" r1 = (Returns meta, Example.drive) /\
    [x61; x62; x63] = received replies.
Proof.
  assert (H : download_file Example.service 5 "1" Example.start =
    Some (Returns {| body := [x61; x62; x63];
                     media_type := "application/octet-stream";
                     headers := {[ "Content-Disposition" :=
                                     "attachment; filename=a.pdf" ]} |},
          {| remote := Example.drive;
             transcript :=
               [EGetMedia "1" 0 (Returns ([x61; x62], false));
                EGetMedia "1" 2 (Returns ([x63], true));
                EGet "1" "name" (Returns {[ "name" := "a.pdf" ]})] |}))
    by (by vm_compute).
  split; [exact H|].
  destruct (download_file_response Example.service 5 "1" Example.start _ _ H)
    as (replies & meta & r1 & Htr & Hget & _ & Hbody & _).
  exists replies, meta, r1. auto.
Defined.

(** The transfer of the first example file takes two fetches. *)
Lemma chunk_loop_terminates_witness :
  transfer Example.service "1" 0 Example.drive
           [([x61; x62], false); ([x63], true)] Example.drive /\
  chunk_loop Example.service 2
    {| dl_fd := BytesIO_new []; dl_request := "1"; dl_progress := 0 |}
    Example.start =
    Some (Returns {| dl_fd := {| buf := [x61; x62; x63]; pos := 3 |};
                     dl_request := "1"; dl_progress := 3 |},
          {| remote := Example.drive;
             transcript :=
               [EGetMedia "1" 0 (Returns ([x61; x62], false));
                EGetMedia "1" 2 (Returns ([x63], true))] |}) /\
  chunk_loop Example.service 1
    {| dl_fd := BytesIO_new []; dl_request := "1"; dl_progress := 0 |}
    Example.start = None.
Proof.
  assert (Htr : transfer Example.service "1" 0 (remote Example.start)
                  [([x61; x62], false); ([x63], true)] Example.drive).
  { apply transfer_more with (r' := Example.drive); [by vm_compute|].
    apply transfer_done. by vm_compute. }
  destruct (chunk_loop_terminates Example.service "1" Example.start _ _ Htr)
    as [Hexit Hrunning].
  split; [exact Htr|]. split.
  - apply (Hexit 2). simpl. lia.
  - apply (Hrunning 1). simpl. lia.
Defined.

(** Listing the example folder by the extension pdf. *)
Lemma list_files_selects_witness :
  exists resp,
    (list_files Example.service "F" (Some "pdf") Example.start).1 = Returns resp /\
    forall d, d ∈ files resp ->
      exists n, d !! "name" = Some n /\ contains n "pdf" = true.
Proof.
  destruct (list_files_selects 2 "F" (Some "pdf") Example.drive [] eq_refl eq_refl)
    as (sel & resp & _ & _ & Hrun & _ & Hname).
  exists resp. split.
  - unfold Example.service, Example.start. by rewrite Hrun.
  - intros d Hd. by apply (Hname d "pdf").
Defined.

(** Listing the example folder with an empty extension returns the text file too. *)
Lemma empty_extension_is_no_filter_witness :
  list_files Example.service "F" (Some EmptyString) Example.start =
    list_files Example.service "F" None Example.start /\
  exists resp,
    (list_files Example.service "F" (Some EmptyString) Example.start).1
      = Returns resp /\
    Drive.project Drive.listing_fields "2" Example.notes ∈ files resp.
Proof.
  destruct (empty_extension_is_no_filter Example.service "F" Example.start)
    as (_ & _ & Hsame & Hall).
  split; [exact Hsame|].
  destruct (Hall 2 Example.drive [] eq_refl) as (resp & Hrun & Hin).
  exists resp. split; [exact Hrun|].
  apply Hin. exists "2", Example.notes.
  split; [by vm_compute|]. split; [apply list_elem_of_here|].
  split; reflexivity.
Defined.

(** Renaming the first example file twice. *)
Lemma rename_file_twice_witness :
  (rename_file Example.service "1" "z.pdf" Example.start).1 =
    Returns {| rn_id := "1"; rn_new_name := "z.pdf" |} /\
  (rename_file Example.service "1" "z.pdf"
     (rename_file Example.service "1" "z.pdf" Example.start).2).1 =
    Returns {| rn_id := "1"; rn_new_name := "z.pdf" |}.
Proof.
  assert (Hst : Drive.store Example.drive !! "1" = Some Example.report)
    by (by vm_compute).
  destruct (rename_file_twice 2 "1" "z.pdf" Example.drive [] _ Hst)
    as (H1 & H2 & _ & _).
  split; [exact H1|exact H2].
Defined.

(** Deleting the first example file twice. *)
Lemma delete_file_twice_witness :
  (delete_file Example.service "1" Example.start).1 =
    Returns {| message := "File 1 deleted successfully" |} /\
  (delete_file Example.service "1"
     (delete_file Example.service "1" Example.start).2).1 =
    Raises (HTTPException 500 "File not found: 1.").
Proof.
  assert (Hst : Drive.store Example.drive !! "1" = Some Example.report)
    by (by vm_compute).
  destruct (delete_file_twice 2 "1" Example.drive [] _ Hst) as (H1 & _ & H2).
  split; [exact H1|exact H2].
Defined.

(** C2: the list operation at an extension with quotes in it.  Line 49 puts
    the extension between quotes as it is, so the text of the extension ends
    the literal of the query and adds a clause of its own, and the file
    returned has a name in which the extension does not occur. *)
Lemma list_files_quoted_extension :
  list_query "F" (Some Example.quoted_extension) =
    "'F' in parents and trashed = false and name contains '.' and name contains 'a'" /\
  (list_files Example.service "F" (Some Example.quoted_extension)
              Example.start).1 =
    Returns {| count := 1;
               files := [Drive.project Drive.listing_fields "1" Example.report] |} /\
  Drive.project Drive.listing_fields "1" Example.report !! "name" = Some "a.pdf" /\
  contains "a.pdf" Example.quoted_extension = false.
Proof. repeat split; by vm_compute. Qed.

(** ** More on the handlers, over any remote service *)

Section HandlerEdges.

Context {R : Type}.
Variable drive_service : DriveService R.
Variable FOLDER_ID : string.

Implicit Types (w : world R) (e : exn) (ev : event).

(** *** Listing *)

(** X1: the list operation has no [try]: when the list call raises, the
    operation raises that very exception, not an HTTP error of its own. *)
Theorem list_files_raises_as_is (extension : option string) w e (r' : R) :
  files_list drive_service (list_query FOLDER_ID extension) "drive"
    "files(id, name, mimeType, modifiedTime)" (remote w) = (Raises e, r') ->
  list_files drive_service FOLDER_ID extension w =
    (Raises e,
     {| remote := r';
        transcript := transcript w ++
          [EList (list_query FOLDER_ID extension) "drive"
                 "files(id, name, mimeType, modifiedTime)" (Raises e)] |}).
Proof.
  intros Hcall. unfold list_files. step. by rewrite Hcall.
Qed.

(** X2: a reply of the list call without the key ["files"] is an empty
    listing: the count is 0 and the operation succeeds. *)
Theorem list_files_without_files_key (extension : option string) w (r' : R) :
  files_list drive_service (list_query FOLDER_ID extension) "drive"
    "files(id, name, mimeType, modifiedTime)" (remote w) = (Returns None, r') ->
  (list_files drive_service FOLDER_ID extension w).1 =
    Returns {| count := 0; files := [] |}.
Proof.
  intros Hcall. unfold list_files. step. by rewrite Hcall.
Qed.


(** X4: list, delete and rename talk to the service exactly once, whatever
    the reply: one list call with the query, one delete call for the file,
    one update call whose body holds the new name and nothing else. *)
Theorem one_exchange_per_operation w :
  (forall extension, exists reply,
     transcript (list_files drive_service FOLDER_ID extension w).2 =
       transcript w ++
       [EList (list_query FOLDER_ID extension) "drive"
              "files(id, name, mimeType, modifiedTime)" reply]) /\
  (forall file_id, exists reply,
     transcript (delete_file drive_service file_id w).2 =
       transcript w ++ [EDelete file_id reply]) /\
  (forall file_id new_name, exists reply,
     transcript (rename_file drive_service file_id new_name w).2 =
       transcript w ++
       [EUpdate file_id {| b_name := Some new_name; b_parents := None |}
                "id, name" reply]).
Proof.
  repeat split.
  - intros extension. unfold list_files. step.
    destruct (files_list _ _ _ _ _) as [[results|e] r']; simpl; eauto.
  - intros file_id. unfold delete_file. step.
    destruct (files_delete _ _ _) as [[u|e] r']; simpl; eauto.
  - intros file_id new_name. unfold rename_file. step.
    destruct (files_update _ _ _ _ _) as [[d|e] r']; simpl; [|eauto].
    destruct (d !! "id"); simpl; [destruct (d !! "name")|]; simpl; eauto.
Qed.

(** *** Downloading *)




(** X6: when the transfer of a download completes and the metadata reply has
    no name, the download succeeds: the response carries the bytes received
    and the header names the file [None]. *)
Theorem download_file_without_name (file_id : string) w replies (r1 r2 : R)
    (meta : resource) (fuel : nat) :
  transfer drive_service file_id 0 (remote w) replies r1 ->
  files_get drive_service file_id "name" r1 = (Returns meta, r2) ->
  meta !! "name" = None ->
  length replies <= fuel ->
  download_file drive_service fuel file_id w =
    Some (Returns {| body := received replies;
                     media_type := "application/octet-stream";
                     headers := {[ "Content-Disposition" :=
                                     "attachment; filename=None" ]} |},
          {| remote := r2;
             transcript := transcript w ++ fetches file_id 0 replies ++
               [EGet file_id "name" (Returns meta)] |}).
Proof.
  intros Htr Hget Hname Hfuel.
  rewrite (download_file_complete drive_service _ _ _ _ _ _ _ Htr Hget Hfuel), Hname.
  reflexivity.
Qed.

(** X14: when the transfer of a download completes and the header built from
    the name in the metadata reply cannot be encoded as latin-1, the download
    raises the HTTP error 500 that carries the encoding error, both calls to
    the service having succeeded. *)
Theorem download_file_name_not_latin1 (file_id : string) w replies (r1 r2 : R)
    (meta : resource) (name : string) (e : exn) (fuel : nat) :
  transfer drive_service file_id 0 (remote w) replies r1 ->
  files_get drive_service file_id "name" r1 = (Returns meta, r2) ->
  meta !! "name" = Some name ->
  latin1_error ("attachment; filename=" +:+ name) = Some e ->
  length replies <= fuel ->
  download_file drive_service fuel file_id w =
    Some (Raises (HTTPException 500 (str e)),
          {| remote := r2;
             transcript := transcript w ++ fetches file_id 0 replies ++
               [EGet file_id "name" (Returns meta)] |}).
Proof.
  intros Htr Hget Hname Hbad Hfuel.
  rewrite (download_file_complete drive_service _ _ _ _ _ _ _ Htr Hget Hfuel), Hname.
  unfold StreamingResponse_new, encode_headers, fmt. simpl default.
  change (latin1_error "Content-Disposition") with (@None exn).
  by rewrite Hbad.
Qed.

(** *** Renaming *)

(** X7: what a rename returns is read from the reply of the update call: its
    id and its name.  A reply without id, or with an id and without name,
    makes the operation raise the HTTP error 500 whose detail is the missing
    key between quotes, although the call to the service has been made. *)
Theorem rename_file_reads_reply (file_id new_name : string) w (d : resource)
    (r' : R) :
  files_update drive_service file_id
    {| b_name := Some new_name; b_parents := None |} "id, name" (remote w)
    = (Returns d, r') ->
  remote (rename_file drive_service file_id new_name w).2 = r' /\
  (rename_file drive_service file_id new_name w).1 =
    match d !! "id", d !! "name" with
    | Some i, Some n => Returns {| rn_id := i; rn_new_name := n |}
    | None, _ => Raises (HTTPException 500 "'id'")
    | Some _, None => Raises (HTTPException 500 "'name'")
    end.
Proof.
  intros Hcall. unfold rename_file. step. rewrite Hcall. simpl.
  destruct (d !! "id"); simpl; [destruct (d !! "name")|]; simpl; done.
Qed.

(** *** Errors *)

(** X8: download, upload, delete and rename raise nothing but the HTTP error
    500: no exception of the service, and no [KeyError], leaves them as it
    is. *)
Theorem handlers_raise_only_http_500 :
  (forall fuel file_id w x w',
     download_file drive_service fuel file_id w = Some (Raises x, w') ->
     exists detail, x = HTTPException 500 detail) /\
  (forall file w x,
     (upload_file drive_service FOLDER_ID file w).1 = Raises x ->
     exists detail, x = HTTPException 500 detail) /\
  (forall file_id w x,
     (delete_file drive_service file_id w).1 = Raises x ->
     exists detail, x = HTTPException 500 detail) /\
  (forall file_id new_name w x,
     (rename_file drive_service file_id new_name w).1 = Raises x ->
     exists detail, x = HTTPException 500 detail).
Proof.
  assert (Hre : forall A (o : outcome A) x,
            reraise o = Raises x -> exists detail, x = HTTPException 500 detail).
  { intros A [a|e] x; simpl; [done|]. intros [= <-]. eauto. }
  repeat split.
  - intros fuel file_id w x w'. unfold download_file.
    destruct (chunk_loop _ _ _ _) as [[[d|e] w1]|]; [| |done].
    + unfold try_except. destruct (download_rest _ _ _ _) as [o w2].
      intros [= Ho Hw]. exact (Hre _ _ _ Ho).
    + intros [= Ho Hw]. subst x. eauto.
  - intros file w x. unfold upload_file, try_except.
    destruct (bind _ _ w) as [o w1]. apply Hre.
  - intros file_id w x. unfold delete_file, try_except.
    destruct (bind _ _ w) as [o w1]. apply Hre.
  - intros file_id new_name w x. unfold rename_file, try_except.
    destruct (bind _ _ w) as [o w1]. apply Hre.
Qed.

End HandlerEdges.

(** ** More on start-up *)

Section ImportFacts.

Variable from_service_account_file : string -> list string -> outcome unit.
Variable build : string -> string -> outcome unit.
Variables environ dotenv : gmap string string.

Let settings : gmap string string := Startup.load_dotenv environ dotenv.
Let res : Startup.module_state * option exn :=
  Startup.import_module from_service_account_file build environ dotenv.

(** The routes of the module, in the order of its decorators. *)
Let table : list Startup.route :=
  [ {| Startup.r_method := Startup.GET; Startup.r_path := "/";
       Startup.r_endpoint := Startup.root |};
    {| Startup.r_method := Startup.GET; Startup.r_path := "/files";
       Startup.r_endpoint := Startup.list_files |};
    {| Startup.r_method := Startup.GET; Startup.r_path := "/download/{file_id}";
       Startup.r_endpoint := Startup.download_file |};
    {| Startup.r_method := Startup.POST; Startup.r_path := "/upload";
       Startup.r_endpoint := Startup.upload_file |};
    {| Startup.r_method := Startup.DELETE; Startup.r_path := "/delete/{file_id}";
       Startup.r_endpoint := Startup.delete_file |};
    {| Startup.r_method := Startup.PATCH; Startup.r_path := "/rename/{file_id}";
       Startup.r_endpoint := Startup.rename_file |} ].

(** X9: a setting that is there but empty counts as missing: the import
    raises the configuration error, with no route registered. *)
Theorem empty_setting_aborts_import :
  Startup.getenv settings "GOOGLE_SERVICE_ACCOUNT_FILE" = Some EmptyString \/
  Startup.getenv settings "GOOGLE_DRIVE_FOLDER_ID" = Some EmptyString ->
  res.2 = Some Startup.missing_settings /\ Startup.routes res.1 = [].
Proof.
  intros Hempty. subst res settings. unfold Startup.import_module.
  destruct Hempty as [-> | ->]; simpl; rewrite ?orb_true_r; done.
Qed.

(** X10: an import that raises, at the check of the settings, at the loading
    of the credentials or at the building of the client, has registered no
    route and built no client, and no request is served. *)
Theorem failed_import_serves_nothing (e : exn) :
  res.2 = Some e ->
  Startup.routes res.1 = [] /\
  Startup.drive_service res.1 = false /\
  forall m p, Startup.served res m p = None.
Proof.
  subst res. unfold Startup.import_module.
  destruct (_ || _); [done|].
  destruct (from_service_account_file _ _); [|done].
  destruct (build _ _); done.
Qed.

(** X11: with both settings present and not empty, whether the import raises
    is decided by the two library calls, in this order: the credentials are
    loaded from the configured file for the drive scope, then the v3 drive
    client is built; the exception of the first that fails is the
    exception of the import. *)
Theorem import_outcome (saf fid : string) :
  Startup.getenv settings "GOOGLE_SERVICE_ACCOUNT_FILE" = Some saf ->
  Startup.getenv settings "GOOGLE_DRIVE_FOLDER_ID" = Some fid ->
  saf <> EmptyString -> fid <> EmptyString ->
  res.2 =
    match from_service_account_file saf
            ["https://www.googleapis.com/auth/drive"] with
    | Raises e => Some e
    | Returns _ =>
      match build "drive" "v3" with
      | Raises e => Some e
      | Returns _ => None
      end
    end.
Proof.
  intros Hsaf Hfid Hs Hf. subst res settings. unfold Startup.import_module.
  rewrite Hsaf, Hfid. simpl.
  rewrite !bool_decide_eq_false_2 by done. simpl.
  unfold Startup.SCOPES.
  destruct (from_service_account_file _ _); [|done].
  destruct (build _ _); done.
Qed.

Lemma import_ok_state :
  res.2 = None ->
  Startup.routes res.1 = table /\
  Startup.drive_service res.1 = true /\
  Startup.SERVICE_ACCOUNT_FILE res.1
    = Startup.getenv settings "GOOGLE_SERVICE_ACCOUNT_FILE" /\
  Startup.FOLDER_ID res.1 = Startup.getenv settings "GOOGLE_DRIVE_FOLDER_ID" /\
  Startup.py_not (Startup.FOLDER_ID res.1) = false.
Proof.
  subst res settings table. unfold Startup.import_module.
  destruct (Startup.py_not _ || _) eqn:Hnot; [done|].
  destruct (from_service_account_file _ _); [|done].
  destruct (build _ _); [|done].
  intros _. simpl. apply orb_false_iff in Hnot as [_ Hfid]. done.
Qed.

(** X12: an import that does not raise has registered the six routes of the
    module, in the order of the decorators, after building the client, and
    holds a folder identifier that is not empty. *)
Theorem import_registers_routes :
  res.2 = None ->
  Startup.routes res.1 = table /\
  Startup.drive_service res.1 = true /\
  exists fid, Startup.FOLDER_ID res.1 = Some fid /\ fid <> EmptyString.
Proof.
  intros Hok. apply import_ok_state in Hok as (Hroutes & Hclient & _ & _ & Hnot).
  repeat split; try done.
  destruct (Startup.FOLDER_ID res.1) as [fid|]; [|done].
  exists fid. split; [done|]. simpl in Hnot.
  by apply bool_decide_eq_false in Hnot.
Qed.





End ImportFacts.

(** ** The further theorems at work *)

(** A query that the example service refuses. *)
Lemma list_files_raises_as_is_witness :
  (list_files Example.service "F" (Some "'") Example.start).1 =
    Raises Drive.invalid_query.
Proof.
  assert (H : files_list Example.service (list_query "F" (Some "'")) "drive"
                "files(id, name, mimeType, modifiedTime)"
                (remote Example.start) = (Raises Drive.invalid_query, Example.drive))
    by (by vm_compute).
  exact (f_equal fst
    (list_files_raises_as_is Example.service "F" (Some "'") Example.start _ _ H)).
Defined.

(** A listing reply without files. *)
Lemma list_files_without_files_key_witness :
  (list_files (Stub.replying ∅) "F" None Stub.start).1 =
    Returns {| count := 0; files := [] |}.
Proof.
  apply (list_files_without_files_key (Stub.replying ∅) "F" None Stub.start ()).
  reflexivity.
Defined.



(** A metadata reply without a name. *)
Lemma download_file_without_name_witness :
  download_file (Stub.replying ∅) 1 "1" Stub.start =
    Some (Returns {| body := [];
                     media_type := "application/octet-stream";
                     headers := {[ "Content-Disposition" :=
                                     "attachment; filename=None" ]} |},
          {| remote := ();
             transcript := [EGetMedia "1" 0 (Returns ([], true));
                            EGet "1" "name" (Returns ∅)] |}).
Proof.
  apply (download_file_without_name (Stub.replying ∅) "1" Stub.start
           [([], true)] () () ∅ 1).
  - by apply transfer_done.
  - reflexivity.
  - reflexivity.
  - simpl. lia.
Defined.

(** A metadata reply with a name that latin-1 cannot hold. *)
Lemma download_file_name_not_latin1_witness :
  download_file (Stub.replying {[ "name" := Stub.hungarian_name ]}) 1 "1"
                Stub.start =
    Some (Raises (HTTPException 500
            "'latin-1' codec can't encode character '\u0151' in position 21: ordinal not in range(256)"),
          {| remote := ();
             transcript :=
               [EGetMedia "1" 0 (Returns ([], true));
                EGet "1" "name" (Returns {[ "name" := Stub.hungarian_name ]})] |}).
Proof.
  rewrite (download_file_name_not_latin1
             (Stub.replying {[ "name" := Stub.hungarian_name ]}) "1" Stub.start
             [([], true)] () () {[ "name" := Stub.hungarian_name ]}
             Stub.hungarian_name
             (UnicodeEncodeError "latin-1"
                ("attachment; filename=" +:+ Stub.hungarian_name) 21 22
                "ordinal not in range(256)") 1).
  - by vm_compute.
  - by apply transfer_done.
  - reflexivity.
  - by vm_compute.
  - by vm_compute.
  - simpl. lia.
Defined.

(** An update reply with an id and no name. *)
Lemma rename_file_reads_reply_witness :
  (rename_file (Stub.replying {[ "id" := "1" ]}) "1" "n" Stub.start).1 =
    Raises (HTTPException 500 "'name'").
Proof.
  destruct (rename_file_reads_reply (Stub.replying {[ "id" := "1" ]}) "1" "n"
              Stub.start {[ "id" := "1" ]} () eq_refl) as [_ H].
  rewrite H. by vm_compute.
Defined.

(** The error of a rename whose reply has no id. *)
Lemma handlers_raise_only_http_500_witness :
  exists detail,
    KeyError "id" <> HTTPException 500 detail /\
    (rename_file (Stub.replying ∅) "1" "n" Stub.start).1 =
      Raises (HTTPException 500 detail).
Proof.
  assert (H : (rename_file (Stub.replying ∅) "1" "n" Stub.start).1 =
              Raises (HTTPException 500 "'id'")) by (by vm_compute).
  destruct (proj2 (proj2 (proj2 (handlers_raise_only_http_500
              (Stub.replying ∅) "F"))) "1" "n" Stub.start _ H) as [detail Hd].
  exists detail. split; [done|]. by rewrite H, Hd.
Defined.

(** An environment in which the folder setting is empty. *)
Lemma empty_setting_aborts_import_witness :
  (Startup.import_module (fun _ _ => Returns ()) (fun _ _ => Returns ())
     {[ "GOOGLE_SERVICE_ACCOUNT_FILE" := "key.json" ]}
     {[ "GOOGLE_DRIVE_FOLDER_ID" := EmptyString ]}).2
    = Some Startup.missing_settings.
Proof.
  apply (empty_setting_aborts_import (fun _ _ => Returns ()) (fun _ _ => Returns ())
           {[ "GOOGLE_SERVICE_ACCOUNT_FILE" := "key.json" ]}
           {[ "GOOGLE_DRIVE_FOLDER_ID" := EmptyString ]}).
  right. by vm_compute.
Defined.

(** Credentials that cannot be loaded. *)
Lemma failed_import_serves_nothing_witness :
  Startup.served
    (Startup.import_module (fun _ _ => Raises (RemoteError "no such file"))
       (fun _ _ => Returns ())
       {[ "GOOGLE_SERVICE_ACCOUNT_FILE" := "key.json" ]}
       {[ "GOOGLE_DRIVE_FOLDER_ID" := "F" ]})
    Startup.GET "/files" = None.
Proof.
  apply (failed_import_serves_nothing
           (fun _ _ => Raises (RemoteError "no such file"))
           (fun _ _ => Returns ())
           {[ "GOOGLE_SERVICE_ACCOUNT_FILE" := "key.json" ]}
           {[ "GOOGLE_DRIVE_FOLDER_ID" := "F" ]}
           (RemoteError "no such file")).
  by vm_compute.
Defined.

(** The client cannot be built. *)
Lemma import_outcome_witness :
  (Startup.import_module (fun _ _ => Returns ())
     (fun _ _ => Raises (RemoteError "unknown api"))
     {[ "GOOGLE_SERVICE_ACCOUNT_FILE" := "key.json" ]}
     {[ "GOOGLE_DRIVE_FOLDER_ID" := "F" ]}).2
    = Some (RemoteError "unknown api").
Proof.
  apply (import_outcome (fun _ _ => Returns ())
           (fun _ _ => Raises (RemoteError "unknown api"))
           {[ "GOOGLE_SERVICE_ACCOUNT_FILE" := "key.json" ]}
           {[ "GOOGLE_DRIVE_FOLDER_ID" := "F" ]} "key.json" "F");
    by vm_compute.
Defined.

(** Both settings there, one from the environment and one from the file. *)
Lemma import_registers_routes_witness :
  length (Startup.routes
    (Startup.import_module (fun _ _ => Returns ()) (fun _ _ => Returns ())
       {[ "GOOGLE_SERVICE_ACCOUNT_FILE" := "key.json" ]}
       {[ "GOOGLE_DRIVE_FOLDER_ID" := "F" ]}).1) = 6.
Proof.
  destruct (import_registers_routes (fun _ _ => Returns ()) (fun _ _ => Returns ())
       {[ "GOOGLE_SERVICE_ACCOUNT_FILE" := "key.json" ]}
       {[ "GOOGLE_DRIVE_FOLDER_ID" := "F" ]}) as (Hroutes & _).
  - by vm_compute.
  - by rewrite Hroutes.
Defined.

